(** * vitepress-linkcard: the metadata extractor, card renderer, file cache
      and markdown integration, embedded from the TypeScript sources.

    Text is modelled as [string] (a sequence of code units below 256), the
    value [undefined] as [None], and a call that can throw as a [result]. *)

From Stdlib Require Import String Ascii List Bool Arith NArith Lia.
From stdpp Require Import base option gmap strings.

Local Open Scope string_scope.
Local Open Scope bool_scope.

(** ** Outcomes of calls that may throw *)

Inductive error : Type :=
| TypeError_InvalidURL      (* thrown by [new URL(s)] *)
| TypeError_Undefined       (* a property read on undefined *)
| SyntaxError_JSON.         (* thrown by [JSON.parse] *)

Inductive result (A : Type) : Type :=
| Return (a : A)
| Throw (e : error).

Arguments Return {A} a.
Arguments Throw {A} e.

Definition bind {A B : Type} (x : result A) (f : A -> result B) : result B :=
  match x with
  | Return a => f a
  | Throw e => Throw e
  end.

Notation "'let*' x ':=' c 'in' k" := (bind c (fun x => k))
  (at level 10, x pattern, c at level 100, k at level 200).

(** ** Characters and strings as JavaScript sees them *)

Module JsString.

Definition code (c : ascii) : nat := nat_of_ascii c.

Definition in_range (lo hi c : ascii) : bool :=
  (code lo <=? code c)%nat && (code c <=? code hi)%nat.

Definition is_upper (c : ascii) : bool := in_range "A" "Z" c.
Definition is_lower (c : ascii) : bool := in_range "a" "z" c.
Definition is_digit (c : ascii) : bool := in_range "0" "9" c.
Definition is_alpha (c : ascii) : bool := is_upper c || is_lower c.
Definition is_alnum (c : ascii) : bool := is_alpha c || is_digit c.

(** [\w] *)
Definition is_word (c : ascii) : bool := is_alnum c || Ascii.eqb c "_".

(** [\s]: TAB, LF, VT, FF, CR, space and the no-break space. *)
Definition is_space (c : ascii) : bool :=
  let n := code c in
  ((9 <=? n)%nat && (n <=? 13)%nat) || (n =? 32)%nat || (n =? 160)%nat.

(** Line terminators, which [.] refuses. *)
Definition is_line_terminator (c : ascii) : bool :=
  (code c =? 10)%nat || (code c =? 13)%nat.

(** The capital letters above the ASCII range among the code units below
    256: 192 to 222, the multiplication sign 215 apart. *)
Definition is_latin1_upper (c : ascii) : bool :=
  (192 <=? code c)%nat && (code c <=? 222)%nat && negb (code c =? 215)%nat.

(** [toLowerCase] on one code unit: a capital letter moves up by 32. *)
Definition to_lower (c : ascii) : ascii :=
  if is_upper c || is_latin1_upper c then ascii_of_nat (code c + 32) else c.

Fixpoint toLowerCase (s : string) : string :=
  match s with
  | EmptyString => EmptyString
  | String c s' => String (to_lower c) (toLowerCase s')
  end.

(** The first [n] code units of [s]. *)
Fixpoint take (n : nat) (s : string) : string :=
  match n, s with
  | S n', String c s' => String c (take n' s')
  | _, _ => EmptyString
  end.

(** What was consumed between a position [s] and a later position [s']. *)
Definition consumed (s s' : string) : string :=
  take (String.length s - String.length s') s.

Fixpoint last_char (prev : option ascii) (s : string) : option ascii :=
  match s with
  | EmptyString => prev
  | String c s' => last_char (Some c) s'
  end.

Definition head_char (s : string) : option ascii :=
  match s with
  | EmptyString => None
  | String c _ => Some c
  end.

(** [s.includes(t)] *)
Fixpoint includes (s t : string) : bool :=
  String.prefix t s ||
  match s with
  | EmptyString => false
  | String _ s' => includes s' t
  end.

(** [s.replace(pat, rep)] with a string pattern: the first occurrence only. *)
Fixpoint replace_first (pat rep s : string) : string :=
  if String.prefix pat s
  then rep ++ String.substring (String.length pat) (String.length s) s
  else match s with
       | EmptyString => EmptyString
       | String c s' => String c (replace_first pat rep s')
       end.

(** [s.split(sep)[0]] for a one-character separator. *)
Fixpoint split_head (sep : ascii) (s : string) : string :=
  match s with
  | EmptyString => EmptyString
  | String c s' => if Ascii.eqb c sep then EmptyString
                   else String c (split_head sep s')
  end.

Fixpoint all_chars (p : ascii -> bool) (s : string) : bool :=
  match s with
  | EmptyString => true
  | String c s' => p c && all_chars p s'
  end.

(** A string is falsy exactly when it is empty. *)
Definition truthy (s : string) : bool :=
  match s with EmptyString => false | _ => true end.

(** [a || b] on an optional string. *)
Definition or_else (a : option string) (b : string) : string :=
  match a with
  | Some s => if truthy s then s else b
  | None => b
  end.

End JsString.

(** ** A backtracking matcher for the regular expressions of the sources *)

Module RegExp.
Import JsString.

Inductive citem : Type :=
| One (c : ascii)
| Range (lo hi : ascii)
| WordC                      (* \w *)
| SpaceC.                    (* \s *)

Definition citem_mem (c : ascii) (i : citem) : bool :=
  match i with
  | One d => Ascii.eqb c d
  | Range lo hi => in_range lo hi c
  | WordC => is_word c
  | SpaceC => is_space c
  end.

Inductive regex : Type :=
| Eps
| Dot                                  (* .   *)
| Cls (neg : bool) (items : list citem) (* [...] and [^...] *)
| Bol                                  (* ^   *)
| NotWordB                             (* \B  *)
| Seq (r1 r2 : regex)
| Alt (r1 r2 : regex)                  (* r1|r2, left first *)
| Star (r : regex)                     (* greedy r* *)
| Group (i : nat) (r : regex).         (* the i-th capturing parenthesis *)

Definition Lit (c : ascii) : regex := Cls false [One c].
Definition Plus (r : regex) : regex := Seq r (Star r).
Definition Opt (r : regex) : regex := Alt r Eps.

Fixpoint lit (s : string) : regex :=
  match s with
  | EmptyString => Eps
  | String c s' => Seq (Lit c) (lit s')
  end.

Definition cls_mem (neg : bool) (items : list citem) (c : ascii) : bool :=
  xorb neg (existsb (citem_mem c) items).

Definition caps : Type := list (nat * string).

Fixpoint cap (i : nat) (c : caps) : option string :=
  match c with
  | [] => None
  | (j, s) :: c' => if Nat.eqb i j then Some s else cap i c'
  end.

Definition opt_word (o : option ascii) : bool :=
  match o with Some c => is_word c | None => false end.

Section Matcher.
Context {R : Type}.

(** A continuation receives the character before the position, the rest of
    the input and the captures so far. *)
Definition cont : Type := option ascii -> string -> caps -> option R.

Definition step_char (p : ascii -> bool) (s : string) (c : caps) (k : cont)
  : option R :=
  match s with
  | String a s' => if p a then k (Some a) s' c else None
  | EmptyString => None
  end.

(** The loop of a greedy star: up to [n] further turns of [body], each of
    which must consume something, the longest run first; [k] follows. *)
Fixpoint star_loop (body : option ascii -> string -> caps -> cont -> option R)
    (k : cont) (n : nat) (prev : option ascii) (s : string) (c : caps)
    {struct n} : option R :=
  match n with
  | O => k prev s c
  | S n' =>
      match body prev s c
              (fun p' s' c' =>
                 if (String.length s' <? String.length s)%nat
                 then star_loop body k n' p' s' c' else None) with
      | Some x => Some x
      | None => k prev s c
      end
  end.

Fixpoint matchk (r : regex) (prev : option ascii) (s : string) (c : caps)
    (k : cont) {struct r} : option R :=
  match r with
  | Eps => k prev s c
  | Dot => step_char (fun a => negb (is_line_terminator a)) s c k
  | Cls neg items => step_char (cls_mem neg items) s c k
  | Bol => match prev with None => k prev s c | Some _ => None end
  | NotWordB =>
      if Bool.eqb (opt_word prev) (opt_word (head_char s))
      then k prev s c else None
  | Seq r1 r2 => matchk r1 prev s c (fun p' s' c' => matchk r2 p' s' c' k)
  | Alt r1 r2 =>
      match matchk r1 prev s c k with
      | Some x => Some x
      | None => matchk r2 prev s c k
      end
  | Star r1 => star_loop (matchk r1) k (String.length s) prev s c
  | Group i r1 =>
      matchk r1 prev s c (fun p' s' c' => k p' s' ((i, consumed s s') :: c'))
  end.

End Matcher.

(** One match: where it starts, its text, its groups, and what follows. *)
Record match_result : Type := MatchResult {
  m_index : nat;
  m_text : string;
  m_groups : caps;
  m_prev : option ascii;
  m_rest : string
}.

Definition match_at (r : regex) (prev : option ascii) (s : string) (i : nat)
  : option match_result :=
  matchk r prev s []
    (fun p' s' c' => Some (MatchResult i (consumed s s') c' p' s')).

(** The leftmost match at or after the current position. *)
Fixpoint search_from (r : regex) (prev : option ascii) (s : string) (i : nat)
  : option match_result :=
  match match_at r prev s i with
  | Some m => Some m
  | None =>
      match s with
      | EmptyString => None
      | String a s' => search_from r (Some a) s' (S i)
      end
  end.

(** [s.match(r)] and [r.exec(s)] for a regular expression without flags. *)
Definition exec (r : regex) (s : string) : option match_result :=
  search_from r None s 0.

(** [m[i]] on a match array: the whole match at 0, the groups after. *)
Definition nth_group (m : match_result) (i : nat) : option string :=
  match i with
  | O => Some (m_text m)
  | _ => cap i (m_groups m)
  end.

(** What a scan with the [g] flag does after a match: it goes on behind the
    match, and one code unit further when the match was empty. *)
Definition advance (m : match_result) : option (string * option ascii * string) :=
  match m_text m, m_rest m with
  | EmptyString, EmptyString => None
  | EmptyString, String a rest' => Some (String a EmptyString, Some a, rest')
  | _, _ => Some (EmptyString, m_prev m, m_rest m)
  end.

(** [s.match(r)] with the [g] flag: the matched texts in order. *)
Fixpoint match_all_from (fuel : nat) (r : regex) (prev : option ascii)
    (s : string) : list string :=
  match fuel with
  | O => []
  | S fuel' =>
      match search_from r prev s 0 with
      | None => []
      | Some m =>
          m_text m ::
          match advance m with
          | None => []
          | Some (_, p', s') => match_all_from fuel' r p' s'
          end
      end
  end.

(** The array of matched texts, or null when there is none. *)
Definition match_all (r : regex) (s : string) : option (list string) :=
  match match_all_from (S (String.length s)) r None s with
  | [] => None
  | ms => Some ms
  end.

(** [s.replace(r, f)] with the [g] flag: every match is replaced by [f] of
    it, the text between matches is kept. *)
Fixpoint replace_from (fuel : nat) (r : regex) (f : match_result -> string)
    (prev : option ascii) (s : string) : string :=
  match fuel with
  | O => s
  | S fuel' =>
      match search_from r prev s 0 with
      | None => s
      | Some m =>
          take (m_index m) s ++ f m ++
          match advance m with
          | None => EmptyString
          | Some (kept, p', s') => kept ++ replace_from fuel' r f p' s'
          end
      end
  end.

(** [s.replace(r, f)] without flags: the leftmost match only. *)
Definition replace_one (r : regex) (f : match_result -> string) (s : string)
  : string :=
  match exec r s with
  | None => s
  | Some m => take (m_index m) s ++ f m ++ m_rest m
  end.

Definition replace_all (r : regex) (f : match_result -> string) (s : string)
  : string :=
  replace_from (S (String.length s)) r f None s.

End RegExp.


(** ** The platform's URL constructor *)

(** [new URL(s)] without a base, after the URL Standard: leading and trailing
    C0 controls and spaces are dropped, tabs and newlines removed, and the
    input must start with a scheme; an input without one (a relative
    reference) is a failure.  For the schemes with an authority the host must
    be a non-empty ASCII domain.  Outside this model lie IDNA and
    percent-decoding, hosts that are IP literals (a bracketed IPv6 address,
    a host whose last label is a number), and what follows the colon of a
    scheme without a default port, which is not examined.  The scheme and
    the host are lower-cased in ASCII; [toLowerCase] agrees with that on every
    character a scheme or an accepted host can hold. *)

Module Url.
Import JsString.

Record URL : Type := mkURL {
  protocol : string;     (* scheme and colon *)
  hostname : string;
  port : option N;       (* None when absent or the scheme's default *)
  origin : string
}.

Definition is_c0_or_space (c : ascii) : bool := (code c <=? 32)%nat.
Definition is_tab_or_newline (c : ascii) : bool :=
  (code c =? 9)%nat || (code c =? 10)%nat || (code c =? 13)%nat.

Fixpoint trim_start (s : string) : string :=
  match s with
  | String c s' => if is_c0_or_space c then trim_start s' else s
  | EmptyString => EmptyString
  end.

Fixpoint trim_end (s : string) : string :=
  match s with
  | EmptyString => EmptyString
  | String c s' =>
      match trim_end s' with
      | EmptyString => if is_c0_or_space c then EmptyString
                       else String c EmptyString
      | t => String c t
      end
  end.

Fixpoint remove_tab_newline (s : string) : string :=
  match s with
  | EmptyString => EmptyString
  | String c s' => if is_tab_or_newline c then remove_tab_newline s'
                   else String c (remove_tab_newline s')
  end.

Definition is_scheme_char (c : ascii) : bool :=
  is_alnum c || Ascii.eqb c "+" || Ascii.eqb c "-" || Ascii.eqb c ".".

(** Scheme state: the lower-cased scheme and what follows its colon. *)
Fixpoint scheme_state (s : string) : option (string * string) :=
  match s with
  | EmptyString => None
  | String c s' =>
      if Ascii.eqb c ":" then Some (EmptyString, s')
      else if is_scheme_char c then
        match scheme_state s' with
        | Some (sch, rest) => Some (String (to_lower c) sch, rest)
        | None => None
        end
      else None
  end.

(** Scheme start state: a scheme begins with an ASCII letter. *)
Definition scheme_start_state (s : string) : option (string * string) :=
  match s with
  | String c _ => if is_alpha c then scheme_state s else None
  | EmptyString => None
  end.

Definition default_port (scheme : string) : option N :=
  if String.eqb scheme "http" then Some 80%N
  else if String.eqb scheme "https" then Some 443%N
  else if String.eqb scheme "ws" then Some 80%N
  else if String.eqb scheme "wss" then Some 443%N
  else if String.eqb scheme "ftp" then Some 21%N
  else None.

Definition is_slash (c : ascii) : bool :=
  Ascii.eqb c "/" || Ascii.eqb c "\".

Fixpoint skip_slashes (s : string) : string :=
  match s with
  | String c s' => if is_slash c then skip_slashes s' else s
  | EmptyString => EmptyString
  end.

Definition ends_authority (c : ascii) : bool :=
  is_slash c || Ascii.eqb c "?" || Ascii.eqb c "#".

Fixpoint authority (s : string) : string :=
  match s with
  | String c s' => if ends_authority c then EmptyString
                   else String c (authority s')
  | EmptyString => EmptyString
  end.

(** The part behind the last [@]. *)
Fixpoint after_userinfo (s : string) : string :=
  match s with
  | EmptyString => EmptyString
  | String c s' =>
      if Ascii.eqb c "@" && negb (includes s' "@") then s'
      else if includes s "@" then after_userinfo s'
      else s
  end.

Fixpoint split_port (s : string) : string * option string :=
  match s with
  | EmptyString => (EmptyString, None)
  | String c s' =>
      if Ascii.eqb c ":" then (EmptyString, Some s')
      else let (h, p) := split_port s' in (String c h, p)
  end.

Definition forbidden_domain_char (c : ascii) : bool :=
  (code c <=? 32)%nat || (127 <=? code c)%nat ||
  existsb (Ascii.eqb c)
    ["#"; "/"; ":"; "<"; ">"; "?"; "@"; "["; "\"; "]"; "^"; "|"; "%"]%char.

Definition digit_of (c : ascii) : N := N.of_nat (code c - code "0").
Definition char_of_digit (d : N) : ascii := ascii_of_nat (code "0" + N.to_nat d).

Fixpoint digits_value (acc : N) (s : string) : N :=
  match s with
  | EmptyString => acc
  | String c s' => digits_value (10 * acc + digit_of c)%N s'
  end.

Fixpoint show_digits (fuel : nat) (n : N) (acc : string) : string :=
  match fuel with
  | O => acc
  | S fuel' =>
      let acc' := String (char_of_digit (n mod 10)%N) acc in
      if (n <? 10)%N then acc' else show_digits fuel' (n / 10)%N acc'
  end.

(** Decimal digits of a number (it has no more digits than bits). *)
Definition show_N (n : N) : string :=
  show_digits (S (N.to_nat (N.log2 n))) n EmptyString.

Definition is_default_port (scheme : string) (n : N) : bool :=
  match default_port scheme with
  | Some d => N.eqb n d
  | None => false
  end.

Definition parse_port (scheme : string) (p : option string)
  : option (option N) :=
  match p with
  | None => Some None
  | Some EmptyString => Some None
  | Some ds =>
      if all_chars is_digit ds then
        let n := digits_value 0 ds in
        if (65535 <? n)%N then None
        else if is_default_port scheme n then Some None
        else Some (Some n)
      else None
  end.

Definition serialize_origin (scheme host : string) (p : option N) : string :=
  scheme ++ "://" ++ host ++
  match p with
  | Some n => ":" ++ show_N n
  | None => EmptyString
  end.

(** Authority and host states of a scheme that has an authority. *)
Definition parse_special (scheme rest : string) : option URL :=
  let auth := after_userinfo (authority (skip_slashes rest)) in
  let (h, p) := split_port auth in
  let host := toLowerCase h in
  if negb (truthy host) then None
  else if negb (all_chars (fun c => negb (forbidden_domain_char c)) host)
  then None
  else match parse_port scheme p with
       | None => None
       | Some pt =>
           Some (mkURL (scheme ++ ":") host pt (serialize_origin scheme host pt))
       end.

Definition basic_url_parser (input : string) : option URL :=
  let s := remove_tab_newline (trim_end (trim_start input)) in
  match scheme_start_state s with
  | None => None                      (* no scheme and no base: failure *)
  | Some (scheme, rest) =>
      match default_port scheme with
      | Some _ => parse_special scheme rest
      | None => Some (mkURL (scheme ++ ":") EmptyString None "null")
      end
  end.

(** [new URL(s)]: a TypeError on failure. *)
Definition new_URL (s : string) : result URL :=
  match basic_url_parser s with
  | Some u => Return u
  | None => Throw TypeError_InvalidURL
  end.

(** src/assemble/url.ts *)

Definition extractUrl (url : string) : result URL := new_URL url.

Definition cleanPath (path : string) : string :=
  RegExp.replace_all (RegExp.lit "//") (fun _ => "/") path.

End Url.

(** ** The metadata extractor (the parser module of src/assemble) *)

Module Parser.
Import JsString RegExp Url.

Record UrlMetadata : Type := mkMeta {
  title : option string;
  description : option string;
  logo : option string
}.

Definition DEFAULT_LOGO : string := "https://resources.whatwg.org/logo-url.svg".

Definition dquote : ascii := "034"%char.

(** A chain of concatenations. *)
Fixpoint seqs (rs : list regex) : regex :=
  match rs with
  | [] => Eps
  | [r] => r
  | r :: rs' => Seq r (seqs rs')
  end.

(** The class of the two quotes and the bar; in the comments below the regular
    expressions of the sources are spelled with blanks between their parts
    and with Q for the double quote. *)
Definition quoteCls : regex := Cls false [One dquote; One "|"; One "'"].
Definition notGt : regex := Cls true [One ">"].
Definition letters : regex := Cls false [Range "A" "Z"; Range "a" "z"].

(** HtmlTagContentReg:  ( <[A-Za-z]+ \s* [^>]* > ( .* ) <\/ [A-Za-z]+ > ) *)
Definition HtmlTagContentReg : regex :=
  Group 1 (seqs [Lit "<"; Plus letters; Star (Cls false [SpaceC]); Star notGt;
                 Lit ">"; Group 2 (Star Dot); lit "</"; Plus letters; Lit ">"]).

(** ContentAttrValueHtmlMetaTagReg:  content= [Q|'] ( [^>]* ) [Q|'] *)
Definition ContentAttrValueHtmlMetaTagReg : regex :=
  seqs [lit "content="; quoteCls; Group 1 (Star notGt); quoteCls].

(** HrefAttrValueHtmlLinkTagReg:  href= [Q|'] ( [^>]* ) [Q|'] *)
Definition HrefAttrValueHtmlLinkTagReg : regex :=
  seqs [lit "href="; quoteCls; Group 1 (Star notGt); quoteCls].

(** HtmlTitleTagReg, used with the g flag:
    ( <title \s* [^>]* > ( .* ) <\/title> ) *)
Definition HtmlTitleTagReg : regex :=
  Group 1 (seqs [lit "<title"; Star (Cls false [SpaceC]); Star notGt; Lit ">";
                 Group 2 (Star Dot); lit "</title>"]).

(** The pattern built from [attr] and [tag]:
    <TAG \s [^>]* \w+ = ['|Q] ( [a-zA-Z] | : | \s )* ATTR ['|Q] [^>]* \/? >
    The names spliced in by the callers are plain words. *)
Definition containArrSelfLosingHtmlTagReg (attr tag : string) : regex :=
  seqs [Lit "<"; lit tag; Cls false [SpaceC]; Star notGt;
        Plus (Cls false [WordC]); Lit "="; quoteCls;
        Star (Group 1 (Alt (Cls false [Range "a" "z"; Range "A" "Z"])
                        (Alt (Lit ":") (Cls false [SpaceC]))));
        lit attr; quoteCls; Star notGt; Opt (Lit "/"); Lit ">"].

(** [metas[0].match(reg)] followed by the guarded read of group [i]. *)
Definition attrValue (reg : regex) (i : nat) (tag : string) : option string :=
  match exec reg tag with
  | Some content => nth_group content i
  | None => None
  end.

Definition matchTitleByMetaTag (htmlString : string) : option string :=
  match exec (containArrSelfLosingHtmlTagReg "title" "meta") htmlString with
  | Some metas => attrValue ContentAttrValueHtmlMetaTagReg 1 (m_text metas)
  | None =>
      match match_all HtmlTitleTagReg htmlString with
      | Some (titleHtmlTag0 :: _) => attrValue HtmlTagContentReg 2 titleHtmlTag0
      | _ => None
      end
  end.

Definition matchDescriptionByMetaTag (htmlString : string) : option string :=
  match exec (containArrSelfLosingHtmlTagReg "description" "meta") htmlString with
  | Some metas => attrValue ContentAttrValueHtmlMetaTagReg 1 (m_text metas)
  | None => None
  end.

Definition matchLogoByLinkOrMetaTag (htmlString : string) : option string :=
  match exec (containArrSelfLosingHtmlTagReg "image" "meta") htmlString with
  | Some metas => attrValue ContentAttrValueHtmlMetaTagReg 1 (m_text metas)
  | None =>
      match exec (containArrSelfLosingHtmlTagReg "icon" "link") htmlString with
      | Some linkHtmlTags =>
          attrValue HrefAttrValueHtmlLinkTagReg 1 (m_text linkHtmlTags)
      | None => None
      end
  end.

(** An object is truthy. *)
Definition object_truthy (u : URL) : bool := true.

(** The inner function [absolute] of [parserMetadata]; [url] is the
    enclosing function's parameter. *)
Definition absolute (url : string) (logo : option string) : result string :=
  match logo with
  | None => Return DEFAULT_LOGO
  | Some l =>
      if negb (truthy l) then Return DEFAULT_LOGO
      else
        let* u := extractUrl l in
        if object_truthy u then Return l
        else let* base := extractUrl url in
             Return (origin base ++ cleanPath ("/" ++ l))
  end.

Definition isString (v : option string) : bool :=
  match v with Some _ => true | None => false end.

Definition isEmptyStringObject (values : list (option string)) : bool :=
  Nat.eqb (List.length (List.filter isString values)) 0.

(** [Return None] is the value null. *)
Definition parserMetadata (htmlString url : string)
  : result (option UrlMetadata) :=
  let t := matchTitleByMetaTag htmlString in
  let d := matchDescriptionByMetaTag htmlString in
  let* l := absolute url (matchLogoByLinkOrMetaTag htmlString) in
  let metadata := mkMeta t d (Some l) in
  if isEmptyStringObject [title metadata; description metadata; logo metadata]
  then Return None
  else Return (Some metadata).

End Parser.

(** ** Inline styles and class names (the style module of src/assemble) *)

Module Style.
Import JsString RegExp.

(** A style value is a string or a number; the numbers of this module are
    multiples of one tenth, far below the 1e21 from which a number is spliced
    in exponent form, and are kept as their count of tenths. *)
Inductive cssval : Type :=
| VStr (s : string)
| VNum (tenths : N).

Definition val_truthy (v : cssval) : bool :=
  match v with
  | VStr s => truthy s
  | VNum n => negb (N.eqb n 0)
  end.

(** The text of a value inside a template literal. *)
Definition val_text (v : cssval) : string :=
  match v with
  | VStr s => s
  | VNum n =>
      if N.eqb (n mod 10) 0 then Url.show_N (n / 10)
      else Url.show_N (n / 10) ++ "." ++ Url.show_N (n mod 10)
  end.

Definition group_text (m : match_result) (i : nat) : string :=
  match nth_group m i with Some t => t | None => EmptyString end.

(** str.replace(/\B([A-Z])/g, '-$1').toLowerCase() *)
Definition hyphenate (str : string) : string :=
  toLowerCase
    (replace_all (Seq NotWordB (Group 1 (Cls false [Range "A" "Z"])))
                 (fun m => "-" ++ group_text m 1) str).

Fixpoint join_with (sep : string) (l : list string) : string :=
  match l with
  | [] => EmptyString
  | [x] => x
  | x :: l' => x ++ sep ++ join_with sep l'
  end.

Definition join (style : list (string * cssval)) : string :=
  join_with " "
    (flat_map (fun kv : string * cssval =>
                 let (k, v) := kv in
                 if truthy k && val_truthy v
                 then [hyphenate k ++ ": " ++ val_text v ++ ";"]
                 else [])
              style).

Definition dq : string := String Parser.dquote EmptyString.

Definition inlineStyle (style : list (string * cssval)) : string :=
  "style=" ++ dq ++ join style ++ dq.

Definition ellipsisStyle (line : N) : list (string * cssval) :=
  [ ("-webkit-box-orient", VStr "vertical");
    ("-webkit-line-clamp", VNum (10 * line));
    ("display", VStr "-webkit-box");
    ("hyphens", VStr "auto");
    ("lineClamp", VNum (10 * line));
    ("overflow", VStr "hidden");
    ("overflowWrap", VStr "anywhere");
    ("textOverflow", VStr "ellipsis");
    ("wordBreak", VStr "break-word") ].

Record styles : Type := mkStyles {
  s_a : string;
  s_container : string;
  s_img : string;
  s_texts : string;
  s_title : string;
  s_domain : string;
  s_description : string
}.

Definition STYLE : styles := {|
  s_a := inlineStyle
    [ ("color", VStr "unset !important");
      ("display", VStr "block");
      ("width", VStr "100%");
      ("textDecoration", VStr "none") ];
  s_container := inlineStyle
    [ ("display", VStr "flex");
      ("alignItems", VStr "center");
      ("flexWrap", VStr "wrap");
      ("gap", VStr "10px");
      ("borderRadius", VStr "12px");
      ("border", VStr "1px solid var(--vp-c-bg-soft)");
      ("backgroundColor", VStr "var(--vp-c-bg-soft)");
      ("boxSizing", VStr "border-box");
      ("width", VStr "100%");
      ("height", VStr "130px");
      ("transition", VStr "border-color 0.25s, background-color 0.25s") ];
  s_img := inlineStyle
    [ ("borderRadius", VStr "0px 12px 12px 0px");
      ("maxWidth", VStr "40%");
      ("height", VStr "128px");
      ("flexShrink", VNum 0);
      ("objectFit", VStr "contain");
      ("overflow", VStr "hidden") ];
  s_texts := inlineStyle
    [ ("flex", VStr "1 1 0%");
      ("minWidth", VStr "0") ];
  s_title := inlineStyle
    (ellipsisStyle 2 ++
     [ ("opacity", VNum 10);
       ("fontSize", VStr "16px");
       ("lineHeight", VStr "22px");
       ("margin", VStr "0 16px 8px 16px");
       ("fontWeight", VStr "bold") ]);
  s_domain := inlineStyle
    (ellipsisStyle 1 ++
     [ ("opacity", VNum 10);
       ("fontSize", VStr "12px");
       ("lineHeight", VStr "16px");
       ("margin", VStr "8px 16px 8px 16px");
       ("textDecoration", VStr "underline") ]);
  s_description := inlineStyle
    (ellipsisStyle 2 ++
     [ ("opacity", VNum 8);
       ("fontSize", VStr "12px");
       ("lineHeight", VStr "16px");
       ("margin", VStr "8px 16px 0px 16px") ])
|}.

Record class_names : Type := mkClassNames {
  c_container : string;
  c_img : string;
  c_texts : string;
  c_title : string;
  c_domain : string;
  c_description : string
}.

(** A missing prefix is spliced in as the text of undefined. *)
Definition classNames (prefix : option string) : class_names :=
  let p := match prefix with Some x => x | None => "undefined" end in
  {| c_container := p ++ "__container";
     c_img := p ++ "__img";
     c_texts := p ++ "__texts";
     c_title := p ++ "__texts--title";
     c_domain := p ++ "__texts--domain";
     c_description := p ++ "__texts--desc" |}.

End Style.

(** ** The card renderer (src/assemble/html.ts) *)

Module Html.
Import JsString RegExp Url Parser Style.

Record CardDomRenderOptions : Type := mkOptions {
  href : string;
  linkTitle : string;
  target : string;
  classPrefix : option string
}.

Definition nl : string := String "010"%char EmptyString.

Definition inject (s : string) : string := s.

(** The function the source names escapeHTML: five global replacements, each
    of an entity by the character it stands for. *)
Definition escapeHTML (str : string) : string :=
  replace_all (lit "&#039;") (fun _ => "'")
    (replace_all (lit "&quot;") (fun _ => dq)
       (replace_all (lit "&gt;") (fun _ => ">")
          (replace_all (lit "&lt;") (fun _ => "<")
             (replace_all (lit "&amp;") (fun _ => "&") str)))).

(** The text of an optional string inside a template literal. *)
Definition splice (v : option string) : string :=
  match v with Some x => x | None => "undefined" end.

(** origin.replace(/^https?:\/\//, '').replace(/^www\./, '') || 'Unknown domain' *)
Definition domainOf (u : URL) : string :=
  let stripped :=
    replace_one (seqs [Bol; lit "www"; Lit "."]) (fun _ => EmptyString)
      (replace_one (seqs [Bol; lit "http"; Opt (Lit "s"); lit "://"])
                   (fun _ => EmptyString) (origin u)) in
  if truthy stripped then stripped else "Unknown domain".

(** The title and description put on the card. *)
Definition cardTexts (data : UrlMetadata) (domain : string) : string * string :=
  if String.eqb domain "github.com" then
    let title :=
      or_else (option_map (fun t => replace_first "GitHub - " EmptyString
                                      (split_head ":" t)) (title data))
              "No title" in
    let description :=
      or_else (option_map
                 (fun d =>
                    replace_first
                      ("Contribute to " ++ title ++
                       " development by creating an account on GitHub.")
                      EmptyString
                      (replace_first (" - " ++ title) EmptyString d))
                 (description data))
              EmptyString in
    (title, description)
  else
    (or_else (title data) "No title", or_else (description data) EmptyString).

(** The text node of a sub-element: the value on a line of its own. *)
Definition textLine (text : string) : string :=
  nl ++ "          " ++ text ++ nl ++ "        ".

(** The template literal the renderer returns. *)
Definition cardTemplate (options : CardDomRenderOptions) (style : styles)
    (title domain description : string) (logo : option string) : string :=
  "<span style=" ++ dq ++ "display:block;" ++ dq ++ ">" ++ nl ++
  "  <a rel=" ++ dq ++ "noopener noreferrer" ++ dq ++
      " target=" ++ dq ++ target options ++ dq ++
      " href=" ++ dq ++ href options ++ dq ++
      " title=" ++ dq ++ linkTitle options ++ dq ++
      " " ++ s_a style ++ ">" ++ nl ++
  "    <span class=" ++ dq ++ "vitepress-linkcard-container" ++ dq ++ " " ++
      inject (s_container style) ++ ">" ++ nl ++
  "      <span " ++ inject (s_texts style) ++ ">" ++ nl ++
  "        <span " ++ inject (s_title style) ++ ">" ++
      textLine (escapeHTML title) ++ "</span>" ++ nl ++
  "        <span " ++ inject (s_domain style) ++ ">" ++
      textLine (escapeHTML domain) ++ "</span>" ++ nl ++
  "        <span " ++ inject (s_description style) ++ ">" ++
      textLine (escapeHTML description) ++ "</span>" ++ nl ++
  "      </span>" ++ nl ++
  "      <img src=" ++ dq ++ splice logo ++ dq ++ " " ++
      inject (s_img style) ++ "/>" ++ nl ++
  "    </span>" ++ nl ++
  "  </a>" ++ nl ++
  "</span>".

Definition generateCardDomFragment (data : UrlMetadata)
    (options : CardDomRenderOptions) : result string :=
  let style := STYLE in
  let url := or_else (Some (href options)) EmptyString in
  let* u := new_URL url in
  let domain := domainOf u in
  let (title, description) := cardTexts data domain in
  Return (cardTemplate options style title domain description (logo data)).

End Html.

(** ** The file cache (the local-file-cache module of src/assemble) *)

Module Cache.
Import Parser.

(** JSON values as [JSON.parse] returns them. *)
#[warnings="-register-all"]
Inductive json : Type :=
| JNull
| JBool (b : bool)
| JNumber (n : Z)
| JString (s : string)
| JArray (items : list json)
| JObject (fields : list (string * json)).

(** A parsed document: a plain object, seen through its own properties, or
    anything else (an array, null, a primitive). *)
Inductive document : Type :=
| DObject (props : gmap string json)
| DOther (j : json).

(** The text of a file, up to what [JSON.parse] makes of it. *)
Inductive text : Type :=
| Blank                      (* empty or white space only *)
| Malformed                  (* not JSON *)
| Json (d : document).

Inductive path : Type := DefaultPath | FallbackPath.

(** The two places where the cache file may live. *)
Record fs : Type := mkFs {
  defaultFile : option text;
  fallbackFile : option text
}.

Definition existsSync (p : path) (st : fs) : bool :=
  match p with
  | DefaultPath => bool_decide (is_Some (defaultFile st))
  | FallbackPath => bool_decide (is_Some (fallbackFile st))
  end.

Definition readFileSync (p : path) (st : fs) : option text :=
  match p with
  | DefaultPath => defaultFile st
  | FallbackPath => fallbackFile st
  end.

Definition writeFileSync (p : path) (t : text) (st : fs) : fs :=
  match p with
  | DefaultPath => mkFs (Some t) (fallbackFile st)
  | FallbackPath => mkFs (defaultFile st) (Some t)
  end.

(** Computations on the file system that may throw. *)
Definition M (A : Type) : Type := fs -> result A * fs.

Definition ret {A : Type} (a : A) : M A := fun st => (Return a, st).
Definition throw {A : Type} (e : error) : M A := fun st => (Throw e, st).
Definition mbind {A B : Type} (m : M A) (f : A -> M B) : M B :=
  fun st =>
    match m st with
    | (Return a, st') => f a st'
    | (Throw e, st') => (Throw e, st')
    end.

Notation "'let!' x ':=' c 'in' k" := (mbind c (fun x => k))
  (at level 10, x pattern, c at level 100, k at level 200).

(** The record as [JSON.stringify] writes it: absent fields are left out. *)
Definition field (k : string) (v : option string) : list (string * json) :=
  match v with
  | Some x => [(k, JString x)]
  | None => []
  end.

Definition toJSON (m : UrlMetadata) : json :=
  JObject (field "title" (title m) ++ field "description" (description m) ++
           field "logo" (logo m)).

Definition initialData : gmap string json :=
  {[ "https://example.com/" :=
       JObject [ ("description", JString "Example Website");
                 ("logo", JString "https://example.com/example.png");
                 ("title", JString "Example Title") ] ]}.

Definition CONFIG_FILE : M path :=
  fun st =>
    if existsSync DefaultPath st then (Return DefaultPath, st)
    else if existsSync FallbackPath st then (Return FallbackPath, st)
    else (Return DefaultPath,
          writeFileSync DefaultPath (Json (DObject initialData)) st).

(** [JSON.parse(fs.readFileSync(p, 'utf-8'))]; the path comes from
    [CONFIG_FILE] and exists. *)
Definition parseFile (p : path) : M document :=
  fun st =>
    match readFileSync p st with
    | Some (Json d) => (Return d, st)
    | _ => (Throw SyntaxError_JSON, st)
    end.

(** Rewrites the file with two-space indentation; the parsed content stays. *)
Definition format : M unit :=
  let! filePath := CONFIG_FILE in
  fun st =>
    match readFileSync filePath st with
    | Some (Json d) => (Return tt, writeFileSync filePath (Json d) st)
    | Some Malformed => (Throw SyntaxError_JSON, st)
    | _ => (Return tt, st)
    end.

(** isPureObject(data) ? data : undefined *)
Definition readFile : M (option (gmap string json)) :=
  let! filePath := CONFIG_FILE in
  let! data := parseFile filePath in
  ret (match data with
       | DObject props => Some props
       | DOther _ => None
       end).

(** [Object.assign(target, { [k]: v })].  The assignment is an ordinary
    property write; for the key __proto__ on an object without an own
    property of that name it reaches the prototype accessor and leaves the
    own properties as they are. *)
Definition object_assign (target : gmap string json) (k : string) (v : json)
  : gmap string json :=
  if bool_decide (k = "__proto__") && bool_decide (target !! k = None)
  then target
  else <[k := v]> target.

Definition writeJson (p : path) (d : document) : M unit :=
  fun st => (Return tt, writeFileSync p (Json d) st).

(** [setFile({ [url]: data })] *)
Definition setFile (url : string) (data : json) : M unit :=
  let! _content := readFile in
  let content :=
    match _content with
    | Some props => object_assign props url data
    | None => {[ url := data ]}
    end in
  let! filePath := CONFIG_FILE in
  let! _ := writeJson filePath (DObject content) in
  format.

Definition set (url : string) (data : UrlMetadata) : M unit :=
  setFile url (toJSON data).

(** The file system after a computation, and the entry the cache file then
    holds for a key. *)
Definition after {A : Type} (m : M A) (st : fs) : fs := snd (m st).

Definition cacheFile (st : fs) : option text :=
  match defaultFile st with
  | Some t => Some t
  | None => fallbackFile st
  end.

Definition parsedContent (st : fs) : option document :=
  match cacheFile st with
  | Some (Json d) => Some d
  | _ => None
  end.

Definition entry (url : string) (st : fs) : option json :=
  match parsedContent st with
  | Some (DObject props) => props !! url
  | _ => None
  end.

End Cache.

(** ** The markdown-it plugin (src/link-to-card-plugin.ts) *)

Module Plugin.
Import JsString RegExp Parser Html.

(** The fields of a markdown-it token the plugin reads or writes. *)
Record Token : Type := mkToken {
  type_ : string;
  tag : string;
  attrs : option (list (string * string));
  content : string;
  hidden : bool
}.

Definition set_hidden (t : Token) : Token :=
  mkToken (type_ t) (tag t) (attrs t) (content t) true.

Record CardLink : Type := mkCardLink {
  isCardLink : bool;
  url : option string
}.

Definition alnum : regex := Cls false [Range "a" "z"; Range "A" "Z"; Range "0" "9"].

(** The pattern of parseCardLinkHref:  ^ ( @: ) ( [a-zA-Z0-9]+ .* ) *)
Definition tagRegexp : regex :=
  seqs [Bol; Group 1 (lit "@:"); Group 2 (Seq (Plus alnum) (Star Dot))].

Definition parseCardLinkHref (href : option string) : CardLink :=
  let match_ :=
    match href with
    | Some h => exec tagRegexp h
    | None => None
    end in
  {| isCardLink := bool_decide (is_Some match_);
     url := match match_ with
            | Some m => nth_group m 2
            | None => None
            end |}.

(** Marks every token except the one at index [i] as hidden. *)
Definition ignoreRestToken (tokens : list Token) (i : nat) : list Token :=
  imap (fun index token => if Nat.eqb index i then token else set_hidden token)
       tokens.

Definition joinLinkTitle (tokens : list Token) : string :=
  String.concat EmptyString
    (List.filter (fun t => truthy t)
       (map (fun t => if hidden t then content t else EmptyString) tokens)).

(** token.attrs?.filter((attr) => attr.includes('href'))[0]?.[1]; an
    attribute is a pair of name and value. *)
Definition hrefOf (token : Token) : option string :=
  match attrs token with
  | None => None
  | Some l =>
      match List.filter (fun a : string * string =>
                      String.eqb (fst a) "href" || String.eqb (snd a) "href") l
      with
      | a :: _ => Some (snd a)
      | [] => None
      end
  end.

Record PluginOptions : Type := mkPluginOptions {
  p_target : option string;
  p_classPrefix : option string;
  p_render : option (UrlMetadata -> CardDomRenderOptions -> string)
}.

Section Renderer.

(** The options given to the plugin, the metadata lookup (cache, fetch and
    extraction) and the host renderer: the rules it has for token types
    other than link_open, and its renderToken. *)
Variable pluginOptions : PluginOptions.
Variable getUrlMetadata : string -> option UrlMetadata.
Variable hostRules : string -> option (list Token -> nat -> string).
Variable renderToken : list Token -> nat -> string.

(** A rule returns its text and leaves the token array as it made it. *)
Definition rendering : Type := result (string * list Token).

Definition assembleCardTpl (url : string) (tokens : list Token) (i : nat)
  : result (option string * list Token) :=
  match getUrlMetadata url with
  | Some urlMetadata =>
      let tokens' := ignoreRestToken tokens i in
      let cardDomOptions :=
        {| href := url;
           linkTitle := joinLinkTitle tokens';
           target := or_else (p_target pluginOptions) "_blank";
           classPrefix := p_classPrefix pluginOptions |} in
      match p_render pluginOptions with
      | Some render => Return (Some (render urlMetadata cardDomOptions), tokens')
      | None =>
          let* card := generateCardDomFragment urlMetadata cardDomOptions in
          Return (Some card, tokens')
      end
  | None => Return (None, tokens)
  end.

(** md.renderer.rules.link_open *)
Definition link_open (tokens : list Token) (i : nat) : rendering :=
  match tokens !! i with
  | None => Throw TypeError_Undefined
  | Some token =>
      let isLinkOpenToken :=
        String.eqb (tag token) "a" && String.eqb (type_ token) "link_open" in
      let parsed := parseCardLinkHref (hrefOf token) in
      match url parsed with
      | Some u =>
          if isLinkOpenToken && isCardLink parsed && truthy u then
            let* r := assembleCardTpl u tokens i in
            match r with
            | (Some card, tokens') =>
                if truthy card then Return (card, tokens')
                else Return (renderToken tokens' i, tokens')
            | (None, tokens') => Return (renderToken tokens' i, tokens')
            end
          else Return (renderToken tokens i, tokens)
      | None => Return (renderToken tokens i, tokens)
      end
  end.

(** One turn of the loop of md.renderer.renderInline. *)
Definition renderStep (tokens : list Token) (i : nat) : rendering :=
  match tokens !! i with
  | None => Throw TypeError_Undefined
  | Some currentToken =>
      if hidden currentToken then Return (EmptyString, tokens)
      else if String.eqb (type_ currentToken) "link_open"
      then link_open tokens i
      else match hostRules (type_ currentToken) with
           | Some ruleFunction => Return (ruleFunction tokens i, tokens)
           | None => Return (renderToken tokens i, tokens)
           end
  end.

(** The loop from index [i], for [n] more turns. *)
Fixpoint renderLoop (n i : nat) (tokens : list Token) (acc : string)
  : result string :=
  match n with
  | O => Return acc
  | S n' =>
      let* r := renderStep tokens i in
      renderLoop n' (S i) (snd r) (acc ++ fst r)
  end.

Definition renderInline (tokens : list Token) : result string :=
  renderLoop (List.length tokens) 0 tokens EmptyString.

End Renderer.

End Plugin.

(** ** Reading the file cache (get and has of the local-file-cache module) *)

Module CacheAccess.
Import Cache.

(** What a property read on the parsed cache object gives: nothing, an own
    property, or a member inherited from Object.prototype. *)
Inductive value : Type :=
| Undefined
| Own (j : json)
| Inherited (name : string).

(** The property names of Object.prototype. *)
Definition objectPrototypeNames : list string :=
  [ "constructor"; "hasOwnProperty"; "isPrototypeOf"; "propertyIsEnumerable";
    "toLocaleString"; "toString"; "valueOf"; "__proto__";
    "__defineGetter__"; "__defineSetter__"; "__lookupGetter__";
    "__lookupSetter__" ].

(** [object[k]] on an object parsed from JSON. *)
Definition getProperty (props : gmap string json) (k : string) : value :=
  match props !! k with
  | Some j => Own j
  | None =>
      if existsb (String.eqb k) objectPrototypeNames then Inherited k
      else Undefined
  end.

(** [cache?.[url]] *)
Definition get (url : string) : M value :=
  let! cache := readFile in
  ret (match cache with
       | Some props => getProperty props url
       | None => Undefined
       end).

Definition json_truthy (j : json) : bool :=
  match j with
  | JNull => false
  | JBool b => b
  | JNumber n => negb (Z.eqb n 0)
  | JString s => JsString.truthy s
  | JArray _ | JObject _ => true
  end.

Definition value_truthy (v : value) : bool :=
  match v with
  | Undefined => false
  | Own j => json_truthy j
  | Inherited _ => true
  end.

(** [!!this.get(url)] *)
Definition has (url : string) : M bool :=
  let! v := get url in
  ret (value_truthy v).

End CacheAccess.

(** ** Fetching a page (sync of src/assemble/xhr.ts) *)

Module Xhr.

(** What one XMLHttpRequest exchange comes to: a response with its status
    and text, or an exception thrown by open or send. *)
Inductive exchange : Type :=
| Response (status : Z) (responseText : string)
| NetworkError.

(** The module-level Map from URL to fetched text. *)
Definition sync (network : string -> exchange) (url : string)
    (cache : gmap string string) : option string * gmap string string :=
  match cache !! url with
  | Some text => (Some text, cache)
  | None =>
      match network url with
      | Response status responseText =>
          if Z.eqb status 200 && JsString.truthy responseText
          then (Some responseText, <[url := responseText]> cache)
          else (None, cache)
      | NetworkError => (None, cache)      (* logged, not thrown *)
      end
  end.

End Xhr.

(** ** Metadata with the file cache in front (src/assemble/metadata.ts) *)

Module Metadata.
Import Parser Cache CacheAccess.

(** The file system and the in-memory Map of the xhr module. *)
Definition state : Type := fs * gmap string string.

(** What getUrlMetadata returns: null, the record just parsed, or what the
    cache file holds. *)
Inductive found : Type :=
| Null
| Fresh (m : UrlMetadata)
| Cached (v : value).

Definition getUrlMetadata (network : string -> Xhr.exchange) (url : string)
    (st : state) : result found * state :=
  let (files, texts) := st in
  match has url files with
  | (Throw e, files1) => (Throw e, (files1, texts))
  | (Return true, files1) =>
      match get url files1 with
      | (Throw e, files2) => (Throw e, (files2, texts))
      | (Return v, files2) => (Return (Cached v), (files2, texts))
      end
  | (Return false, files1) =>
      let (htmlString, texts1) := Xhr.sync network url texts in
      match htmlString with
      | None => (Return Null, (files1, texts1))
      | Some html =>
          if JsString.truthy html then
            match parserMetadata html url with
            | Throw e => (Throw e, (files1, texts1))
            | Return None => (Return Null, (files1, texts1))
            | Return (Some metadata) =>
                match set url metadata files1 with
                | (Throw e, files2) => (Throw e, (files2, texts1))
                | (Return _, files2) => (Return (Fresh metadata), (files2, texts1))
                end
            end
          else (Return Null, (files1, texts1))
      end
  end.

End Metadata.

(** ** The programmatic entry point (src/api.ts) *)

Module Api.
Import JsString Parser Html.

(** The options of generateCard: those of the renderer without href. *)
Record CardOptions : Type := mkCardOptions {
  o_linkTitle : string;
  o_target : option string;
  o_classPrefix : option string
}.

Record CardResponse : Type := mkCardResponse {
  r_url : string;
  r_data : UrlMetadata;
  r_options : CardOptions;
  r_dom : string
}.

(** How the returned promise ends: resolved, rejected by an exception in
    the executor, or never settled. *)
Inductive promise (A : Type) : Type :=
| Resolved (a : A)
| Rejected (e : error)
| Pending.

Arguments Resolved {A} a.
Arguments Rejected {A} e.
Arguments Pending {A}.

(** The Map of the xhr module and the module's own Map of responses. *)
Definition state : Type := gmap string string * gmap string CardResponse.

Definition generateCard (network : string -> Xhr.exchange) (url : string)
    (options : CardOptions) (st : state) : promise CardResponse * state :=
  let (texts, cache) := st in
  let (htmlString, texts1) := Xhr.sync network url texts in
  match htmlString with
  | None => (Pending, (texts1, cache))
  | Some html =>
      if JsString.truthy html then
        match parserMetadata html url with
        | Throw e => (Rejected e, (texts1, cache))
        | Return None => (Pending, (texts1, cache))
        | Return (Some urlMetadata) =>
            let _options :=
              {| o_linkTitle := o_linkTitle options;
                 o_target := Some (or_else (o_target options) "_blank");
                 o_classPrefix := o_classPrefix options |} in
            match generateCardDomFragment urlMetadata
                    {| href := url;
                       linkTitle := o_linkTitle _options;
                       target := or_else (o_target options) "_blank";
                       classPrefix := o_classPrefix _options |} with
            | Throw e => (Rejected e, (texts1, cache))
            | Return card =>
                let response := mkCardResponse url urlMetadata _options card in
                (Resolved response, (texts1, <[url := response]> cache))
            end
        end
      else (Pending, (texts1, cache))
  end.

End Api.

(** * Inputs and notions used in the statements *)

Import JsString RegExp Url Parser Style Html.

(** ** Pages *)

Definition taglessPage : string :=
  "<html><head></head><body><p>hello</p></body></html>".

Definition faviconPage : string :=
  "<html><head><link rel='icon' href='/favicon.ico'></head></html>".

Definition relativeLogoPage : string :=
  "<html><head><link rel='icon' href='/img/a.png'></head></html>".

Definition contentFirstPage : string :=
  "<meta content='OGP' property='og:title'><title>Plain</title>".

Definition titleMetaReg : regex := containArrSelfLosingHtmlTagReg "title" "meta".

(** The title meta pattern without its closing >. *)
Definition titleMetaInit : regex :=
  seqs [Lit "<"; lit "meta"; Cls false [SpaceC]; Star notGt;
        Plus (Cls false [WordC]); Lit "="; quoteCls;
        Star (Group 1 (Alt (Cls false [Range "a" "z"; Range "A" "Z"])
                        (Alt (Lit ":") (Cls false [SpaceC]))));
        lit "title"; quoteCls; Star notGt; Opt (Lit "/")].

(** The plain title element, as the fallback branch reads it. *)
Definition plainTitle (htmlString : string) : option string :=
  match match_all HtmlTitleTagReg htmlString with
  | Some (titleHtmlTag0 :: _) => attrValue HtmlTagContentReg 2 titleHtmlTag0
  | _ => None
  end.

(** Any character but >. *)
Definition notgt (a : ascii) : bool := cls_mem true [One ">"] a.

(** Any character but &. *)
Definition notamp (a : ascii) : bool := negb (Ascii.eqb a "&").

Definition isQuote (q : ascii) : Prop := q = "'"%char \/ q = dquote.

(** The tag  <meta property=Q og:title Q content=Q v Q>  for a quote Q. *)
Definition ogTitleTag (q : ascii) (v : string) : string :=
  "<meta property=" ++ String q ("og:title" ++ String q (" content=" ++
     String q (v ++ String q (String ">" EmptyString)))).

(** The same tag with [rest] behind it, spelled from left to right. *)
Definition ogTitlePage (q : ascii) (v rest : string) : string :=
  "<meta property=" ++ String q ("og:title" ++ String q (" content=" ++
     String q (v ++ String q (String ">" rest)))).

(** ** Cards *)

Definition markupData : UrlMetadata :=
  mkMeta (Some "<b>Tom & Jerry</b>") (Some "1 < 2 > 0")
         (Some "https://example.com/logo.png").

Definition exampleOptions (prefix : option string) : CardDomRenderOptions :=
  mkOptions "https://example.com/page" "a link" "_blank" prefix.

Definition rendered (r : result string) : string :=
  match r with Return html => html | Throw _ => EmptyString end.





(** ** Cache files *)

(** What one [setFile] does to the text of the cache file. *)
Definition merged (url : string) (data : Cache.json) (t : Cache.text) : Cache.text :=
  match t with
  | Cache.Json (Cache.DObject props) =>
      Cache.Json (Cache.DObject (Cache.object_assign props url data))
  | Cache.Json (Cache.DOther _) => Cache.Json (Cache.DObject {[ url := data ]})
  | Cache.Blank => Cache.Blank
  | Cache.Malformed => Cache.Malformed
  end.

Definition cachedExample : UrlMetadata :=
  mkMeta (Some "Example Domain") (Some "Example description")
         (Some "https://example.com/logo.png").

(** ** Token streams, a host and a metadata source *)

Import Plugin.

(** The href starts with the marker and an ASCII letter or digit. *)
Definition marked (href : string) : Prop :=
  exists c rest, href = String "@" (String ":" (String c rest)) /\ is_alnum c = true.

Definition linkOpenToken (h : string) : Token :=
  mkToken "link_open" "a" (Some [("href", h)]) EmptyString false.
Definition textToken (c : string) : Token :=
  mkToken "text" EmptyString None c false.
Definition linkCloseToken : Token :=
  mkToken "link_close" "a" None EmptyString false.

Definition exampleHostRules (ty : string) : option (list Token -> nat -> string) :=
  if String.eqb ty "text"
  then Some (fun tokens i => match tokens !! i with
                             | Some t => content t
                             | None => EmptyString
                             end)
  else None.

Definition exampleRenderToken (tokens : list Token) (i : nat) : string :=
  match tokens !! i with
  | Some t =>
      if String.eqb (type_ t) "link_close" then "</" ++ tag t ++ ">"
      else "<" ++ tag t ++ " href='" ++ splice (hrefOf t) ++ "'>"
  | None => EmptyString
  end.

Definition exampleMetadata (u : string) : option UrlMetadata :=
  if String.eqb u "https://example.com"
  then Some (mkMeta (Some "Example Title") None (Some DEFAULT_LOGO))
  else None.

Definition noOptions : PluginOptions := mkPluginOptions None None None.

(** A card link, then text and an ordinary link outside it. *)
Definition exampleStream : list Token :=
  [ linkOpenToken "@:https://example.com"; textToken "card"; linkCloseToken;
    textToken " and "; linkOpenToken "https://other.example";
    textToken "other"; linkCloseToken ].

Definition exampleCard : string :=
  rendered (generateCardDomFragment
              (mkMeta (Some "Example Title") None (Some DEFAULT_LOGO))
              (mkOptions "https://example.com" "card and other" "_blank" None)).

(** ** Notions for reasoning about the matcher *)

Definition all_ascii : list ascii := map ascii_of_nat (seq 0 256).

Definition forall_ascii (f : ascii -> bool) : bool := forallb f all_ascii.

(** Every character the expression can consume satisfies [P]. *)
Fixpoint only (P : ascii -> bool) (r : regex) : bool :=
  match r with
  | Eps | Bol | NotWordB => true
  | Dot => forall_ascii (fun a => implb (negb (is_line_terminator a)) (P a))
  | Cls neg items => forall_ascii (fun a => implb (cls_mem neg items a) (P a))
  | Seq r1 r2 | Alt r1 r2 => only P r1 && only P r2
  | Star r1 | Group _ r1 => only P r1
  end.

(** A successful call went on, after a word of [P]-characters, with a
    successful call of the continuation. *)
Definition consumes {R : Type} (P : ascii -> bool)
    (f : option ascii -> string -> caps -> @cont R -> option R) : Prop :=
  forall p s c k x,
    f p s c k = Some x ->
    exists w p' s' c', s = w ++ s' /\ all_chars P w = true /\ k p' s' c' = Some x.

(** The one-character expressions and the characters they take. *)
Fixpoint accepts (r : regex) (a : ascii) : bool :=
  match r with
  | Dot => negb (is_line_terminator a)
  | Cls neg items => cls_mem neg items a
  | Alt r1 r2 => accepts r1 a || accepts r2 a
  | Group _ r1 => accepts r1 a
  | _ => false
  end.

(** The order in which a star over a character class hands over to its
    continuation: behind the longest run first, then ever shorter. *)
Fixpoint backtrack {R : Type} (k : @cont R) (p : option ascii) (w rest : string)
    (c : caps) : option R :=
  match w with
  | EmptyString => k p rest c
  | String a w' =>
      match backtrack k (Some a) w' rest c with
      | Some x => Some x
      | None => k p (String a w' ++ rest) c
      end
  end.

(** ** Notions for the further properties *)

(** A run of [n] slashes. *)
Fixpoint slashes (n : nat) : string :=
  match n with
  | O => EmptyString
  | S n' => String "/" (slashes n')
  end.

Definition notColon (c : ascii) : bool := negb (Ascii.eqb c ":").

(** Not a capital letter: [toLowerCase] leaves the character alone. *)
Definition notCapital (c : ascii) : bool :=
  negb (is_upper c || is_latin1_upper c).

Definition notTerminator (a : ascii) : bool := negb (is_line_terminator a).

(** Empty, or beginning with a character outside [P]. *)
Definition stopsAt (P : ascii -> bool) (s : string) : bool :=
  match s with
  | EmptyString => true
  | String b _ => negb (P b)
  end.

(** The pattern of hyphenate: a capital letter not at a word boundary. *)
Definition capital : regex := Seq NotWordB (Group 1 (Cls false [Range "A" "Z"])).

(** A hyphen before every capital letter that follows a word character. *)
Fixpoint hyphens (prev : option ascii) (s : string) : string :=
  match s with
  | EmptyString => EmptyString
  | String c s' =>
      if is_upper c && opt_word prev
      then String "-" (String c (hyphens (Some c) s'))
      else String c (hyphens (Some c) s')
  end.

(** A host text without a leading www and its dot. *)
Definition withoutWww (h : string) : string :=
  match h with
  | String "w" (String "w" (String "w" (String "." rest))) => rest
  | _ => h
  end.

Definition ogImagePage : string :=
  "<meta property='og:image' content='https://example.com/a.png'>".

Definition exampleUrl : URL :=
  mkURL "https:" "example.com" None "https://example.com".

(** What the host renders for the token at index [j]. *)
Definition hostText (hostRules : string -> option (list Token -> nat -> string))
    (renderToken : list Token -> nat -> string) (tokens : list Token) (j : nat)
  : string :=
  match tokens !! j with
  | Some t =>
      match hostRules (type_ t) with
      | Some ruleFunction => ruleFunction tokens j
      | None => renderToken tokens j
      end
  | None => EmptyString
  end.

(** The host's rendering of the [n] tokens from index [j] on. *)
Definition hostTexts (hostRules : string -> option (list Token -> nat -> string))
    (renderToken : list Token -> nat -> string) (tokens : list Token)
    (j n : nat) : string :=
  String.concat EmptyString (map (hostText hostRules renderToken tokens) (seq j n)).

(** A token that is shown and is not the opening of a link. *)
Definition plainToken (t : Token) : bool :=
  negb (hidden t) && negb (String.eqb (type_ t) "link_open").

(** The contents of all tokens but the one at index [i]. *)
Definition othersContent (tokens : list Token) (i : nat) : string :=
  String.concat EmptyString (map content (firstn i tokens ++ skipn (S i) tokens)).

(** Text, a card link with its text, and text behind it. *)
Definition prefixedStream : list Token :=
  [ textToken "see "; linkOpenToken "@:https://example.com"; textToken "card";
    linkCloseToken; textToken " now" ].

Definition prefixedCard : string :=
  rendered (generateCardDomFragment
              (mkMeta (Some "Example Title") None (Some DEFAULT_LOGO))
              (mkOptions "https://example.com" "see card now" "_blank" None)).

(** A card link whose target has no scheme. *)
Definition schemelessStream : list Token :=
  [ linkOpenToken "@:example.com"; textToken "x"; linkCloseToken ].

Definition everywhere (u : string) : option UrlMetadata := Some cachedExample.
Definition nowhere (u : string) : option UrlMetadata := None.

Definition customRender (data : UrlMetadata) (options : CardDomRenderOptions)
  : string :=
  "<card href='" ++ href options ++ "' target='" ++ target options ++ "'/>".

Definition customOptions : PluginOptions :=
  mkPluginOptions None None (Some customRender).

(** ** Networks and stores *)

Definition serves (body : string) (url : string) : Xhr.exchange :=
  Xhr.Response 200 body.
Definition notFound (url : string) : Xhr.exchange :=
  Xhr.Response 404 "Not Found".
Definition offline (url : string) : Xhr.exchange := Xhr.NetworkError.

Definition noTexts : gmap string string := empty.

Definition noFiles : Cache.fs := Cache.mkFs None None.
Definition exampleFile : Cache.fs :=
  Cache.mkFs (Some (Cache.Json (Cache.DObject Cache.initialData))) None.

(** * Properties *)

(** ** Strings *)

Lemma append_cons (a : ascii) (s t : string) : String a s ++ t = String a (s ++ t).
Proof. reflexivity. Qed.

Lemma append_nil_l (t : string) : EmptyString ++ t = t.
Proof. reflexivity. Qed.

Lemma append_empty_r (s : string) : s ++ EmptyString = s.
Proof.
  induction s as [|a s IH]; [reflexivity|].
  rewrite append_cons, IH. reflexivity.
Qed.

Lemma append_assoc (a b c : string) : (a ++ b) ++ c = a ++ (b ++ c).
Proof.
  induction a as [|x a IH]; [reflexivity|].
  rewrite !append_cons, IH. reflexivity.
Qed.

Lemma snoc_assoc (v : string) (q : ascii) (t : string) :
  v ++ String q t = (v ++ String q EmptyString) ++ t.
Proof. rewrite append_assoc. reflexivity. Qed.

Lemma length_append (a b : string) :
  String.length (a ++ b) = String.length a + String.length b.
Proof.
  induction a as [|x a IH]; [reflexivity|].
  rewrite append_cons. simpl. rewrite IH. reflexivity.
Qed.

Lemma all_chars_append (P : ascii -> bool) (a b : string) :
  all_chars P (a ++ b) = all_chars P a && all_chars P b.
Proof.
  induction a as [|x a IH]; [reflexivity|].
  rewrite append_cons. simpl. rewrite IH. apply andb_assoc.
Qed.

Lemma take_append (a b : string) : take (String.length a) (a ++ b) = a.
Proof.
  induction a as [|x a IH]; [destruct b; reflexivity|].
  rewrite append_cons. simpl. rewrite IH. reflexivity.
Qed.

Lemma consumed_append (a b : string) : consumed (a ++ b) b = a.
Proof.
  unfold consumed. rewrite length_append.
  replace (String.length a + String.length b - String.length b)
    with (String.length a) by lia.
  apply take_append.
Qed.

Lemma or_else_self (h : string) : or_else (Some h) EmptyString = h.
Proof. destruct h; reflexivity. Qed.

Lemma forall_ascii_spec (f : ascii -> bool) :
  forall_ascii f = true -> forall a, f a = true.
Proof.
  unfold forall_ascii. rewrite forallb_forall. intros H a. apply H.
  unfold all_ascii. rewrite <- (ascii_nat_embedding a).
  apply in_map, in_seq. pose proof (nat_ascii_bounded a). lia.
Qed.

Lemma alnum_class (c : ascii) :
  cls_mem false [Range "a" "z"; Range "A" "Z"; Range "0" "9"] c = is_alnum c.
Proof.
  unfold cls_mem, is_alnum, is_alpha, is_upper, is_lower, is_digit; simpl.
  destruct (in_range "a" "z" c), (in_range "A" "Z" c), (in_range "0" "9" c);
    reflexivity.
Qed.

(** ** The matcher *)

Section MatcherFacts.
Context {R : Type}.

Lemma matchk_seq (r1 r2 : regex) p s c (k : @cont R) :
  matchk (Seq r1 r2) p s c k =
  matchk r1 p s c (fun p' s' c' => matchk r2 p' s' c' k).
Proof. reflexivity. Qed.

Lemma matchk_alt (r1 r2 : regex) p s c (k : @cont R) :
  matchk (Alt r1 r2) p s c k =
  match matchk r1 p s c k with
  | Some x => Some x
  | None => matchk r2 p s c k
  end.
Proof. reflexivity. Qed.

Lemma matchk_star (r : regex) p s c (k : @cont R) :
  matchk (Star r) p s c k = star_loop (matchk r) k (String.length s) p s c.
Proof. reflexivity. Qed.

Lemma matchk_eps p s c (k : @cont R) : matchk Eps p s c k = k p s c.
Proof. reflexivity. Qed.

Lemma matchk_bol_start s c (k : @cont R) : matchk Bol None s c k = k None s c.
Proof. reflexivity. Qed.

Lemma matchk_cls neg items p a s c (k : @cont R) :
  matchk (Cls neg items) p (String a s) c k =
  if cls_mem neg items a then k (Some a) s c else None.
Proof. reflexivity. Qed.

Lemma matchk_lit_same a p s c (k : @cont R) :
  matchk (Lit a) p (String a s) c k = k (Some a) s c.
Proof.
  unfold Lit. rewrite matchk_cls. unfold cls_mem. simpl.
  rewrite Ascii.eqb_refl. reflexivity.
Qed.

Lemma matchk_lit_other a b p s c (k : @cont R) :
  Ascii.eqb b a = false -> matchk (Lit a) p (String b s) c k = None.
Proof.
  intros H. unfold Lit. rewrite matchk_cls. unfold cls_mem. simpl.
  rewrite H. reflexivity.
Qed.

Lemma matchk_group i r p s c (k : @cont R) :
  matchk (Group i r) p s c k =
  matchk r p s c (fun p' s' c' => k p' s' ((i, consumed s s') :: c')).
Proof. reflexivity. Qed.

(** A star succeeds when its continuation succeeds on the spot. *)
Lemma star_loop_skip body (k : @cont R) n p s c :
  is_Some (k p s c) -> is_Some (star_loop body k n p s c).
Proof.
  intros Hk. destruct n as [|n]; simpl; [exact Hk|].
  destruct (body p s c _); [eexists; reflexivity | exact Hk].
Qed.

Lemma matchk_star_total (r : regex) (k : @cont R) :
  (forall p s c, is_Some (k p s c)) ->
  forall p s c, is_Some (matchk (Star r) p s c k).
Proof. intros Hk p s c. rewrite matchk_star. apply star_loop_skip, Hk. Qed.

(** *** What a successful match has consumed *)

Lemma consumes_step_char (P q : ascii -> bool) :
  (forall a, implb (q a) (P a) = true) ->
  forall s c (k : @cont R) x,
    step_char q s c k = Some x ->
    exists w p' s' c', s = w ++ s' /\ all_chars P w = true /\ k p' s' c' = Some x.
Proof.
  intros Hq s c k x H. destruct s as [|a s]; [discriminate|]. simpl in H.
  specialize (Hq a). destruct (q a); [|discriminate].
  exists (String a EmptyString), (Some a), s, c. simpl in *.
  rewrite Hq. repeat split; assumption.
Qed.

Lemma star_loop_consumes (P : ascii -> bool) body (k : @cont R) :
  consumes P body ->
  forall n p s c x,
    star_loop body k n p s c = Some x ->
    exists w p' s' c', s = w ++ s' /\ all_chars P w = true /\ k p' s' c' = Some x.
Proof.
  intros Hbody. induction n as [|n IH]; intros p s c x H; simpl in H.
  - exists EmptyString, p, s, c. repeat split; assumption.
  - match type of H with
    | match ?b with _ => _ end = _ => destruct b as [y|] eqn:E
    end.
    + injection H as ->.
      apply Hbody in E. destruct E as (w1 & p1 & s1 & c1 & -> & Hw1 & E).
      destruct (_ <? _)%nat; [|discriminate].
      apply IH in E. destruct E as (w2 & p2 & s2 & c2 & -> & Hw2 & E).
      exists (w1 ++ w2), p2, s2, c2.
      rewrite append_assoc, all_chars_append, Hw1, Hw2.
      repeat split; assumption.
    + exists EmptyString, p, s, c. repeat split; assumption.
Qed.

Lemma matchk_consumes (P : ascii -> bool) (r : regex) :
  only P r = true -> consumes P (@matchk R r).
Proof.
  induction r as [| | neg items | | | r1 IH1 r2 IH2 | r1 IH1 r2 IH2 | r1 IH1 | i r1 IH1];
    intros Ho p s c k x H; simpl in Ho, H.
  - exists EmptyString, p, s, c. repeat split; assumption.
  - apply (consumes_step_char P _ (forall_ascii_spec _ Ho)) in H. exact H.
  - apply (consumes_step_char P _ (forall_ascii_spec _ Ho)) in H. exact H.
  - destruct p; [discriminate|].
    exists EmptyString, None, s, c. repeat split; assumption.
  - destruct (Bool.eqb _ _); [|discriminate].
    exists EmptyString, p, s, c. repeat split; assumption.
  - apply andb_true_iff in Ho. destruct Ho as [Ho1 Ho2].
    apply (IH1 Ho1) in H. destruct H as (w1 & p1 & s1 & c1 & -> & Hw1 & H).
    apply (IH2 Ho2) in H. destruct H as (w2 & p2 & s2 & c2 & -> & Hw2 & H).
    exists (w1 ++ w2), p2, s2, c2.
    rewrite append_assoc, all_chars_append, Hw1, Hw2.
    repeat split; assumption.
  - apply andb_true_iff in Ho. destruct Ho as [Ho1 Ho2].
    destruct (matchk r1 p s c k) as [y|] eqn:E.
    + injection H as ->. apply (IH1 Ho1) in E. exact E.
    + apply (IH2 Ho2) in H. exact H.
  - apply (star_loop_consumes P _ _ (IH1 Ho)) in H. exact H.
  - apply (IH1 Ho) in H. destruct H as (w & p' & s' & c' & -> & Hw & H).
    exists w, p', s', ((i, consumed (w ++ s') s') :: c'). repeat split; assumption.
Qed.

(** *** Greedy stars over single characters *)

Lemma accepts_some (r : regex) (a : ascii) :
  accepts r a = true ->
  forall p s c (k : @cont R),
    (forall c', is_Some (k (Some a) s c')) ->
    is_Some (matchk r p (String a s) c k).
Proof.
  induction r as [| | neg items | | | r1 IH1 r2 IH2 | r1 IH1 r2 IH2 | r1 IH1 | i r1 IH1];
    simpl; intros Ha p s c k Hk; try discriminate.
  - rewrite Ha. apply Hk.
  - rewrite Ha. apply Hk.
  - destruct (matchk r1 p (String a s) c k) as [y|] eqn:E; [eexists; reflexivity|].
    apply orb_true_iff in Ha. destruct Ha as [Ha|Ha].
    + destruct (IH1 Ha p s c k Hk) as [y Hy]. congruence.
    + apply (IH2 Ha p s c k Hk).
  - apply (IH1 Ha). intros c'. apply Hk.
Qed.

(** If the continuation succeeds behind a run of accepted characters, so
    does the star in front of the run. *)
Lemma star_loop_run (r : regex) (k : @cont R) (rest : string) :
  (forall p' c', is_Some (k p' rest c')) ->
  forall w n p c,
    all_chars (accepts r) w = true ->
    String.length w <= n ->
    is_Some (star_loop (matchk r) k n p (w ++ rest) c).
Proof.
  intros Hk. induction w as [|a w IH]; intros n p c Hw Hn.
  - apply star_loop_skip, Hk.
  - destruct n as [|n]; [simpl in Hn; lia|].
    rewrite append_cons.
    simpl in Hw. apply andb_true_iff in Hw. destruct Hw as [Ha Hw].
    simpl star_loop.
    match goal with
    | |- is_Some (match ?b with _ => _ end) =>
        assert (Hb : is_Some b); [|destruct Hb as [y ->]; eexists; reflexivity]
    end.
    apply (accepts_some r a Ha). intros c'.
    rewrite (proj2 (Nat.ltb_lt _ _)) by (simpl; lia).
    apply IH; [exact Hw | simpl in Hn; lia].
Qed.

Lemma star_cls_backtrack (neg : bool) (items : list citem) (k : @cont R)
    (rest : string) :
  match rest with
  | EmptyString => true
  | String b _ => negb (cls_mem neg items b)
  end = true ->
  forall w n p c,
    all_chars (cls_mem neg items) w = true ->
    String.length w <= n ->
    star_loop (matchk (Cls neg items)) k n p (w ++ rest) c = backtrack k p w rest c.
Proof.
  intros Hrest. induction w as [|a w IH]; intros n p c Hw Hn.
  - rewrite append_nil_l. simpl backtrack.
    destruct n as [|n]; [reflexivity|]. simpl.
    destruct rest as [|b rest]; [reflexivity|]. simpl.
    apply negb_true_iff in Hrest. rewrite Hrest. reflexivity.
  - destruct n as [|n]; [simpl in Hn; lia|].
    rewrite append_cons.
    simpl in Hw. apply andb_true_iff in Hw. destruct Hw as [Ha Hw].
    cbn [star_loop backtrack]. rewrite matchk_cls, Ha.
    rewrite (proj2 (Nat.ltb_lt _ _)) by (simpl; lia).
    rewrite IH; [rewrite append_cons; reflexivity | exact Hw | simpl in Hn; lia].
Qed.

Lemma backtrack_snoc (k : @cont R) (w : string) (a : ascii) :
  forall p rest c,
    backtrack k p (w ++ String a EmptyString) rest c =
    match k (Some a) rest c with
    | Some x => Some x
    | None => backtrack k p w (String a rest) c
    end.
Proof.
  induction w as [|b w IH]; intros p rest c.
  - reflexivity.
  - rewrite append_cons. simpl backtrack. rewrite IH.
    destruct (k (Some a) rest c); [reflexivity|].
    rewrite !append_cons, append_assoc. reflexivity.
Qed.

Lemma backtrack_full (k : @cont R) (w : string) :
  forall p rest c x,
    k (last_char p w) rest c = Some x -> backtrack k p w rest c = Some x.
Proof.
  induction w as [|a w IH]; intros p rest c x H; simpl in *.
  - exact H.
  - rewrite (IH _ _ _ _ H). reflexivity.
Qed.

End MatcherFacts.

(** *** Searching *)

Lemma search_from_miss r p a s i :
  match_at r p (String a s) i = None ->
  search_from r p (String a s) i = search_from r (Some a) s (S i).
Proof. intros H. simpl. rewrite H. reflexivity. Qed.

Lemma search_from_hit r p s i m :
  match_at r p s i = Some m -> search_from r p s i = Some m.
Proof. intros H. destruct s; simpl; rewrite H; reflexivity. Qed.

(** Behind the first position a pattern that begins with the anchor fails. *)
Lemma search_from_anchored (r : regex) (s : string) (a : ascii) (i : nat) :
  search_from (Seq Bol r) (Some a) s i = None.
Proof.
  revert a i. induction s as [|b s IH]; intros a i; simpl; [reflexivity|].
  apply IH.
Qed.

Lemma exec_anchored (r : regex) (s : string) :
  exec (Seq Bol r) s = match_at (Seq Bol r) None s 0.
Proof.
  unfold exec. destruct s as [|b s]; simpl.
  - destruct (match_at (Seq Bol r) None EmptyString 0); reflexivity.
  - destruct (match_at (Seq Bol r) None (String b s) 0); [reflexivity|].
    apply search_from_anchored.
Qed.

(** A pattern that begins with a character the text does not have matches
    nowhere. *)
Lemma search_from_absent (a : ascii) (r : regex) (s : string) :
  all_chars (fun b => negb (Ascii.eqb b a)) s = true ->
  forall p i, search_from (Seq (Lit a) r) p s i = None.
Proof.
  induction s as [|b s IH]; intros Hs p i.
  - reflexivity.
  - simpl in Hs. apply andb_true_iff in Hs. destruct Hs as [Hb Hs].
    apply negb_true_iff in Hb.
    rewrite search_from_miss; [apply IH, Hs|].
    unfold match_at. rewrite matchk_seq. apply matchk_lit_other, Hb.
Qed.

(** One step of the matcher on an input whose next character is known. *)
Ltac class_step :=
  rewrite matchk_cls;
  match goal with
  | |- context [if ?b then _ else _] =>
      let b' := eval vm_compute in b in change b with b'
  end; cbv iota.

Ltac mstep :=
  first [ rewrite matchk_seq
        | rewrite matchk_eps
        | rewrite matchk_lit_same
        | class_step ].

Ltac norm_append :=
  repeat (rewrite append_assoc || rewrite append_cons || rewrite append_nil_l).

(** ** The metadata extractor *)

Lemma absolute_unfold (url l : string) :
  absolute url (Some l) =
  if truthy l then (let* _ := extractUrl l in Return l) else Return DEFAULT_LOGO.
Proof.
  unfold absolute. destruct (truthy l); simpl; [|reflexivity].
  destruct (extractUrl l); reflexivity.
Qed.

(** The logo field of the record is filled before the emptiness test, so the
    test never succeeds. *)
Lemma parserMetadata_never_null (htmlString url : string) :
  parserMetadata htmlString url <> Return None.
Proof.
  unfold parserMetadata.
  destruct (absolute url (matchLogoByLinkOrMetaTag htmlString)) as [l|e];
    simpl; [|congruence].
  unfold isEmptyStringObject; simpl.
  destruct (isString (matchTitleByMetaTag htmlString)),
           (isString (matchDescriptionByMetaTag htmlString)); simpl; congruence.
Qed.

(** A page without the character < has none of the tags. *)
Lemma no_tags_without_lt (htmlString : string) :
  all_chars (fun b => negb (Ascii.eqb b "<")) htmlString = true ->
  matchTitleByMetaTag htmlString = None /\
  matchDescriptionByMetaTag htmlString = None /\
  matchLogoByLinkOrMetaTag htmlString = None.
Proof.
  intros H.
  unfold matchTitleByMetaTag, matchDescriptionByMetaTag, matchLogoByLinkOrMetaTag,
    match_all, exec, containArrSelfLosingHtmlTagReg, HtmlTitleTagReg.
  cbn [seqs]. simpl match_all_from.
  change (lit "<title") with (Seq (Lit "<") (lit "title")).
  rewrite !(search_from_absent "<" _ htmlString H).
  assert (Ht : forall p i,
             search_from
               (Group 1 (seqs [Seq (Lit "<") (lit "title");
                               Star (Cls false [SpaceC]); Star notGt; Lit ">";
                               Group 2 (Star Dot); lit "</title>"]))
               p htmlString i = None).
  { clear -H.
    induction htmlString as [|b s IH]; intros p i; [reflexivity|].
    simpl in H. apply andb_true_iff in H. destruct H as [Hb Hs].
    apply negb_true_iff in Hb.
    rewrite search_from_miss; [apply IH, Hs|].
    unfold match_at. cbn [seqs]. rewrite matchk_group, !matchk_seq.
    apply matchk_lit_other, Hb. }
  rewrite Ht. repeat split; reflexivity.
Qed.

(** C1 (fails on the code): on a page without title, description, image or
    icon tags the three extraction steps find nothing, yet parserMetadata
    returns a record holding the default logo instead of null; it returns
    null on no input at all. *)
Theorem parserMetadata_tagless_not_null :
  matchTitleByMetaTag taglessPage = None /\
  matchDescriptionByMetaTag taglessPage = None /\
  matchLogoByLinkOrMetaTag taglessPage = None /\
  parserMetadata taglessPage "https://example.com" =
    Return (Some (mkMeta None None (Some DEFAULT_LOGO))) /\
  (forall htmlString url, parserMetadata htmlString url <> Return None).
Proof.
  do 4 (split; [vm_compute; reflexivity|]).
  apply parserMetadata_never_null.
Qed.

(** C2 (fails on the code): a logo candidate that is an absolute URL is
    returned unchanged, but for the relative candidate /img/a.png found on a
    page of https://example.com/blog/post the URL constructor throws inside
    absolute, so no logo https://example.com/img/a.png is produced; the
    branch that joins origin and cleaned path, which would yield it, is never
    reached. *)
Theorem absolute_relative_logo_throws :
  matchLogoByLinkOrMetaTag relativeLogoPage = Some "/img/a.png" /\
  absolute "https://example.com/blog/post" (Some "/img/a.png") =
    Throw TypeError_InvalidURL /\
  parserMetadata relativeLogoPage "https://example.com/blog/post" =
    Throw TypeError_InvalidURL /\
  absolute "https://example.com/blog/post" (Some "https://cdn.example.com/a.png") =
    Return "https://cdn.example.com/a.png" /\
  (let* base := extractUrl "https://example.com/blog/post" in
   Return (origin base ++ cleanPath ("/" ++ "/img/a.png"))) =
    Return "https://example.com/img/a.png" /\
  (forall url l, absolute url (Some l) =
     if truthy l then (let* _ := extractUrl l in Return l)
     else Return DEFAULT_LOGO).
Proof.
  do 5 (split; [vm_compute; reflexivity|]).
  apply absolute_unfold.
Qed.

(** Whatever the page, a logo candidate the URL constructor rejects makes
    the whole extraction throw. *)
Lemma rejected_logo_throws (htmlString url l : string) (e : error) :
  matchLogoByLinkOrMetaTag htmlString = Some l ->
  truthy l = true ->
  extractUrl l = Throw e ->
  parserMetadata htmlString url = Throw e.
Proof.
  intros Hl Ht He. unfold parserMetadata.
  rewrite Hl, absolute_unfold, Ht, He. reflexivity.
Qed.

(** C3 (fails on the code): parserMetadata raises an error on a page whose
    favicon link has the relative href /favicon.ico, for a valid source URL. *)
Theorem parserMetadata_favicon_throws :
  extractUrl "https://example.com" =
    Return (mkURL "https:" "example.com" None "https://example.com") /\
  matchLogoByLinkOrMetaTag faviconPage = Some "/favicon.ico" /\
  parserMetadata faviconPage "https://example.com" = Throw TypeError_InvalidURL.
Proof. repeat split; vm_compute; reflexivity. Qed.

(** On a page without tags the record holds the default logo alone. *)
Lemma parserMetadata_without_tags (htmlString url : string) :
  all_chars (fun b => negb (Ascii.eqb b "<")) htmlString = true ->
  parserMetadata htmlString url =
    Return (Some (mkMeta None None (Some DEFAULT_LOGO))).
Proof.
  intros H. destruct (no_tags_without_lt htmlString H) as (Ht & Hd & Hl).
  unfold parserMetadata. rewrite Ht, Hd, Hl. reflexivity.
Qed.

(** *** Title precedence *)

(** A match of the title meta pattern is a run without > closed by a >. *)
Lemma titleMeta_text p s i m :
  match_at titleMetaReg p s i = Some m ->
  exists w, all_chars notgt w = true /\
            s = w ++ String ">" (m_rest m) /\
            m_text m = w ++ String ">" EmptyString.
Proof.
  unfold match_at. intros H.
  change (matchk titleMetaInit p s []
            (fun p' s' c' => matchk (Lit ">") p' s' c'
               (fun p' s' c' => Some (MatchResult i (consumed s s') c' p' s')))
          = Some m) in H.
  apply (matchk_consumes notgt titleMetaInit) in H; [|vm_compute; reflexivity].
  destruct H as (w & p' & s' & c' & -> & Hw & H).
  destruct s' as [|a s']; [discriminate|].
  unfold Lit in H. rewrite matchk_cls in H.
  unfold cls_mem in H. simpl in H.
  destruct (Ascii.eqb_spec a ">") as [->|]; [|discriminate]. simpl in H.
  injection H as <-. simpl.
  exists w. repeat split; [exact Hw|].
  rewrite (snoc_assoc w ">" s'). apply consumed_append.
Qed.

Lemma first_gt_unique (w w' s s' : string) :
  all_chars notgt w = true -> all_chars notgt w' = true ->
  w ++ String ">" s = w' ++ String ">" s' -> w = w' /\ s = s'.
Proof.
  revert w'. induction w as [|a w IH]; intros [|b w'] Hw Hw' H.
  - injection H as ->. split; reflexivity.
  - injection H as <- _. simpl in Hw'. discriminate.
  - injection H as -> _. simpl in Hw. discriminate.
  - injection H as -> H. simpl in Hw, Hw'.
    apply andb_true_iff in Hw, Hw'.
    destruct (IH w' (proj2 Hw) (proj2 Hw') H) as [-> ->]. split; reflexivity.
Qed.

(** The title meta pattern matches at the start of a page that begins with
    the og:title tag. *)
Lemma titleMeta_exists (q : ascii) (v rest : string) {R : Type} (k : @cont R) c :
  isQuote q -> all_chars notgt v = true ->
  (forall p c', is_Some (k p rest c')) ->
  is_Some (matchk titleMetaReg None (ogTitlePage q v rest) c k).
Proof.
  intros Hq Hv Hk.
  unfold titleMetaReg, containArrSelfLosingHtmlTagReg, ogTitlePage.
  rewrite !append_cons, !append_nil_l. cbn [seqs lit].
  unfold Plus, Opt, quoteCls, notGt.
  destruct Hq as [-> | ->]; unfold dquote.
  - repeat mstep.
    rewrite matchk_star. apply star_loop_skip. repeat mstep.
    rewrite matchk_star.
    eapply star_loop_run with (w := "roperty"); [|reflexivity|simpl; lia].
    intros p1 c1. repeat mstep.
    rewrite matchk_star.
    eapply star_loop_run with (w := "og:"); [|reflexivity|simpl; lia].
    intros p2 c2. repeat mstep.
    rewrite matchk_star.
    rewrite (snoc_assoc v "'" (String ">" rest)).
    eapply star_loop_run with (w := " content='" ++ v ++ String "'" EmptyString);
      [| |simpl; rewrite !length_append; simpl; lia].
    + intros p3 c3. rewrite matchk_seq, matchk_alt. unfold Lit at 1.
      class_step. repeat mstep. apply Hk.
    + rewrite !all_chars_append.
      change (accepts (Cls true [One ">"])) with notgt. rewrite Hv. reflexivity.
  - repeat mstep.
    rewrite matchk_star. apply star_loop_skip. repeat mstep.
    rewrite matchk_star.
    eapply star_loop_run with (w := "roperty"); [|reflexivity|simpl; lia].
    intros p1 c1. repeat mstep.
    rewrite matchk_star.
    eapply star_loop_run with (w := "og:"); [|reflexivity|simpl; lia].
    intros p2 c2. repeat mstep.
    rewrite matchk_star.
    rewrite (snoc_assoc v _ (String ">" rest)).
    eapply star_loop_run
      with (w := (" content=" ++ String dquote EmptyString) ++ v ++ String dquote EmptyString);
      [| |simpl; rewrite !length_append; simpl; lia].
    + intros p3 c3. rewrite matchk_seq, matchk_alt. unfold Lit at 1.
      class_step. repeat mstep. apply Hk.
    + rewrite !all_chars_append.
      change (accepts (Cls true [One ">"])) with notgt. rewrite Hv. reflexivity.
Qed.

(** From a content attribute on, the content pattern captures up to the
    last quote in front of the closing >. *)
Lemma content_at (q : ascii) (v : string) p i :
  isQuote q -> all_chars notgt v = true ->
  exists m,
    match_at ContentAttrValueHtmlMetaTagReg p
      ("content=" ++ String q (v ++ String q (String ">" EmptyString))) i = Some m /\
    nth_group m 1 = Some v.
Proof.
  intros Hq Hv. unfold match_at, ContentAttrValueHtmlMetaTagReg.
  rewrite !append_cons, !append_nil_l. cbn [seqs lit]. unfold quoteCls, notGt.
  assert (Hrun : forall a, notgt a = true ->
            all_chars (cls_mem true [One ">"]) (v ++ String a EmptyString) = true).
  { intros a Ha. rewrite all_chars_append.
    change (cls_mem true [One ">"]) with notgt. rewrite Hv. simpl.
    rewrite Ha. reflexivity. }
  destruct Hq as [-> | ->]; unfold dquote in *.
  - repeat mstep. rewrite matchk_group, matchk_star.
    rewrite (snoc_assoc v _ (String ">" EmptyString)).
    rewrite star_cls_backtrack;
      [ | reflexivity | apply Hrun; reflexivity
        | rewrite !length_append; simpl; lia ].
    rewrite backtrack_snoc. class_step.
    eexists. split.
    + apply backtrack_full. class_step. reflexivity.
    + simpl. rewrite <- snoc_assoc. rewrite consumed_append. reflexivity.
  - repeat mstep. rewrite matchk_group, matchk_star.
    rewrite (snoc_assoc v _ (String ">" EmptyString)).
    rewrite star_cls_backtrack;
      [ | reflexivity | apply Hrun; reflexivity
        | rewrite !length_append; simpl; lia ].
    rewrite backtrack_snoc. class_step.
    eexists. split.
    + apply backtrack_full. class_step. reflexivity.
    + simpl. rewrite <- snoc_assoc. rewrite consumed_append. reflexivity.
Qed.

Lemma ogTitlePage_tag (q : ascii) (v rest : string) :
  ogTitleTag q v ++ rest = ogTitlePage q v rest.
Proof. unfold ogTitleTag, ogTitlePage. norm_append. reflexivity. Qed.

(** On a page that begins with the og:title tag the extractor's title is
    the content value of that tag, whatever follows the tag. *)
Lemma og_title_tag_wins (q : ascii) (v rest : string) :
  isQuote q -> all_chars notgt v = true ->
  matchTitleByMetaTag (ogTitleTag q v ++ rest) = Some v.
Proof.
  intros Hq Hv. rewrite ogTitlePage_tag.
  destruct (titleMeta_exists q v rest
              (fun p' s' c' => Some (MatchResult 0
                 (consumed (ogTitlePage q v rest) s') c' p' s')) [] Hq Hv)
    as [m Hm]; [intros; eexists; reflexivity|].
  unfold matchTitleByMetaTag. fold titleMetaReg.
  unfold exec. rewrite (search_from_hit _ _ _ _ m Hm).
  destruct (titleMeta_text _ _ _ _ Hm) as (w & Hw & Hs & Ht).
  rewrite Ht.
  assert (Hpage : ogTitlePage q v rest =
                  ("<meta property=" ++ String q ("og:title" ++ String q
                     (" content=" ++ String q (v ++ String q EmptyString))))
                  ++ String ">" rest).
  { unfold ogTitlePage. rewrite !append_cons, !append_nil_l.
    rewrite (snoc_assoc v q (String ">" rest)). reflexivity. }
  rewrite Hpage in Hs.
  apply first_gt_unique in Hs; [ | | exact Hw].
  2: { rewrite !append_cons, !append_nil_l. cbn [all_chars].
       rewrite all_chars_append, Hv.
       destruct Hq as [-> | ->]; reflexivity. }
  destruct Hs as [<- _].
  unfold attrValue, exec. norm_append.
  destruct (content_at q v (Some " "%char) 26 Hq Hv) as (m' & Hm' & Hg).
  repeat (rewrite append_cons in Hm' || rewrite append_nil_l in Hm').
  destruct Hq as [-> | ->]; unfold dquote in *.
  - repeat (rewrite search_from_miss by reflexivity).
    rewrite (search_from_hit _ _ _ _ m' Hm'). exact Hg.
  - repeat (rewrite search_from_miss by reflexivity).
    rewrite (search_from_hit _ _ _ _ m' Hm'). exact Hg.
Qed.

(** C4 (fails on the code): this page has one meta tag, carrying og:title
    and the content value OGP, and a plain title element; the title extracted
    is neither OGP nor Plain, because the content pattern runs on to the last
    quote of the tag. *)
Lemma title_not_the_content_value :
  includes contentFirstPage "content='OGP'" = true /\
  includes contentFirstPage "property='og:title'" = true /\
  includes contentFirstPage "<title>Plain</title>" = true /\
  plainTitle contentFirstPage = Some "Plain" /\
  matchTitleByMetaTag contentFirstPage = Some "OGP' property='og:title" /\
  matchTitleByMetaTag contentFirstPage <> Some "OGP".
Proof.
  do 5 (split; [vm_compute; reflexivity|]).
  vm_compute. discriminate.
Qed.

(** ** The card renderer *)

Lemma replace_all_absent (a : ascii) (r : regex) (f : match_result -> string)
    (s : string) :
  all_chars (fun b => negb (Ascii.eqb b a)) s = true ->
  replace_all (Seq (Lit a) r) f s = s.
Proof.
  intros H. unfold replace_all. simpl.
  rewrite (search_from_absent a r s H). reflexivity.
Qed.

(** X11: a text without the character & passes through escapeHTML
    unchanged, whatever markup characters it has. *)
Lemma escapeHTML_without_amp (str : string) :
  all_chars notamp str = true -> escapeHTML str = str.
Proof.
  intros H. unfold escapeHTML. cbn [lit].
  rewrite !(replace_all_absent "&" _ _ str H). reflexivity.
Qed.

(** C5 (fails on the code): the function named escapeHTML replaces entities
    by the characters they stand for and leaves the characters themselves
    alone, so a title and a description with markup characters reach the
    fragment unescaped. *)
Theorem escapeHTML_leaves_markup :
  escapeHTML "<b>Tom & Jerry</b>" = "<b>Tom & Jerry</b>" /\
  escapeHTML "&lt;b&gt; &amp; &#039;" = "<b> & '" /\
  generateCardDomFragment markupData (exampleOptions None) =
    Return (cardTemplate (exampleOptions None) STYLE "<b>Tom & Jerry</b>"
              "example.com" "1 < 2 > 0" (logo markupData)) /\
  (let html := rendered (generateCardDomFragment markupData (exampleOptions None)) in
   includes html "<b>Tom & Jerry</b>" = true /\
   includes html "1 < 2 > 0" = true /\
   includes html "&lt;" = false /\
   includes html "&gt;" = false /\
   includes html "&amp;" = false).
Proof. repeat split; vm_compute; reflexivity. Qed.

Lemma generateCardDomFragment_ignores_classPrefix
    (data : UrlMetadata) (h l t : string) (p q : option string) :
  generateCardDomFragment data (mkOptions h l t p) =
  generateCardDomFragment data (mkOptions h l t q).
Proof. reflexivity. Qed.

(** C6 (fails on the code): the default renderer never reads classPrefix;
    with a prefix supplied it returns the same fragment as without one,
    carrying the inline style attributes and no class name made from the
    prefix. *)
Theorem classPrefix_has_no_effect :
  (forall data h l t p,
     generateCardDomFragment data (mkOptions h l t (Some p)) =
     generateCardDomFragment data (mkOptions h l t None)) /\
  (let html := rendered (generateCardDomFragment markupData
                           (exampleOptions (Some "my-card"))) in
   includes html (s_title STYLE) = true /\
   includes html (s_container STYLE) = true /\
   includes html "my-card" = false /\
   includes html (c_title (classNames (Some "my-card"))) = false).
Proof.
  split.
  - intros. apply generateCardDomFragment_ignores_classPrefix.
  - repeat split; vm_compute; reflexivity.
Qed.


(** ** The file cache *)

Section CacheFacts.
Import Cache.

Lemma after_setFile (url : string) (data : json) (st : fs) :
  after (setFile url data) st =
  match defaultFile st, fallbackFile st with
  | Some t, fb => mkFs (Some (merged url data t)) fb
  | None, Some t => mkFs None (Some (merged url data t))
  | None, None => mkFs (Some (merged url data (Json (DObject initialData)))) None
  end.
Proof.
  destruct st as [[[| |[props|j]]|] [[| |[props'|j']]|]]; reflexivity.
Qed.

Lemma object_assign_idem (props : gmap string json) (k : string) (v : json) :
  object_assign (object_assign props k v) k v = object_assign props k v.
Proof.
  unfold object_assign.
  destruct (bool_decide (k = "__proto__") && bool_decide (props !! k = None)) eqn:E.
  - rewrite E. reflexivity.
  - rewrite lookup_insert_eq.
    rewrite (bool_decide_eq_false_2 (Some v = None)) by discriminate.
    rewrite andb_false_r. apply insert_insert_eq.
Qed.

Lemma object_assign_other (props : gmap string json) (k k' : string) (v : json) :
  k <> k' -> object_assign props k v !! k' = props !! k'.
Proof.
  intros Hne. unfold object_assign.
  destruct (_ && _); [reflexivity|]. apply lookup_insert_ne, Hne.
Qed.

Lemma merged_idem (url : string) (data : json) (t : text) :
  merged url data (merged url data t) = merged url data t.
Proof.
  destruct t as [| |[props|j]]; simpl; try reflexivity.
  - rewrite object_assign_idem. reflexivity.
  - unfold object_assign. rewrite lookup_singleton_eq.
    rewrite (bool_decide_eq_false_2 (Some data = None)) by discriminate.
    rewrite andb_false_r, insert_singleton_eq. reflexivity.
Qed.

(** A second [set] with the same arguments leaves both files as the first
    one left them. *)
Lemma set_twice (url : string) (data : UrlMetadata) (st : fs) :
  after (set url data) (after (set url data) st) = after (set url data) st.
Proof.
  unfold set. rewrite !after_setFile.
  destruct st as [[t|] [t'|]]; simpl;
    rewrite ?merged_idem, ?object_assign_idem; reflexivity.
Qed.

Lemma cacheFile_after_setFile (url : string) (data : json) (st : fs) :
  cacheFile (after (setFile url data) st) <> None.
Proof.
  rewrite after_setFile. destruct st as [[t|] [t'|]]; discriminate.
Qed.

(** Once the cache file exists, a [set] for one key leaves the entries of
    all other keys as they were. *)
Lemma set_other (url k : string) (data : UrlMetadata) (st : fs) :
  cacheFile st <> None ->
  url <> k ->
  entry k (after (set url data) st) = entry k st.
Proof.
  intros Hfile Hne. unfold set. rewrite after_setFile.
  destruct st as [[[| |[props|j]]|] [[| |[props'|j']]|]];
    unfold entry, parsedContent, cacheFile in *; simpl in *;
    try reflexivity; try congruence;
    solve [ apply object_assign_other, Hne | apply lookup_singleton_ne, Hne ].
Qed.

(** C8: a second set with the same URL and metadata leaves the parsed
    content of the cache file as the first call left it, and a set for a
    second, different URL leaves the entry of the first URL as it was. *)
Theorem set_idempotent_and_preserving
    (st : fs) (url1 url2 : string) (data1 data2 : UrlMetadata) :
  url1 <> url2 ->
  parsedContent (after (set url1 data1) (after (set url1 data1) st)) =
    parsedContent (after (set url1 data1) st) /\
  entry url1 (after (set url2 data2) (after (set url1 data1) st)) =
    entry url1 (after (set url1 data1) st).
Proof.
  intros Hne. split.
  - rewrite set_twice. reflexivity.
  - apply set_other; [apply cacheFile_after_setFile | congruence].
Qed.

Lemma set_idempotent_and_preserving_witness :
  let st := mkFs None None in
  let url1 := "https://example.com/a" in
  let url2 := "https://example.org/b" in
  parsedContent (after (set url1 cachedExample) (after (set url1 cachedExample) st)) =
    parsedContent (after (set url1 cachedExample) st) /\
  entry url1 (after (set url2 (mkMeta None None (Some DEFAULT_LOGO)))
                (after (set url1 cachedExample) st)) =
    entry url1 (after (set url1 cachedExample) st).
Proof.
  intros st url1 url2.
  apply (set_idempotent_and_preserving st url1 url2 cachedExample
           (mkMeta None None (Some DEFAULT_LOGO))).
  unfold url1, url2. discriminate.
Defined.

(** The entry a successful set stores is the record as JSON writes it. *)
Lemma set_stores_entry :
  entry "https://example.com/a"
    (after (set "https://example.com/a" cachedExample) (mkFs None None)) =
  Some (toJSON cachedExample).
Proof.
  unfold set. rewrite after_setFile. unfold entry, parsedContent, cacheFile.
  simpl. unfold object_assign.
  rewrite (bool_decide_eq_false_2 (_ = "__proto__")) by discriminate.
  simpl. apply lookup_insert_eq.
Qed.

End CacheFacts.

(** ** The markdown-it plugin *)

Lemma tagRegexp_matches (href : string) :
  is_Some (exec tagRegexp href) <-> marked href.
Proof.
  unfold tagRegexp. simpl seqs. rewrite exec_anchored. unfold match_at.
  split.
  - intros [m Hm]. simpl in Hm. unfold step_char in Hm.
    destruct href as [|c0 [|c1 [|c2 rest]]]; simpl in Hm; try discriminate.
    + unfold cls_mem in Hm; simpl in Hm. destruct (Ascii.eqb c0 "@"); discriminate.
    + unfold cls_mem in Hm; simpl in Hm.
      destruct (Ascii.eqb c0 "@"); simpl in Hm; [|discriminate].
      destruct (Ascii.eqb c1 ":"); discriminate.
    + destruct (Ascii.eqb_spec c0 "@") as [->|]; simpl in Hm; [|discriminate].
      destruct (Ascii.eqb_spec c1 ":") as [->|]; simpl in Hm; [|discriminate].
      pose proof (alnum_class c2) as Ha. unfold cls_mem in Ha. simpl in Ha.
      rewrite Ha in Hm.
      destruct (is_alnum c2) eqn:E; [|discriminate].
      exists c2, rest. split; [reflexivity | exact E].
  - intros (c & rest & -> & Hc).
    rewrite matchk_seq, matchk_bol_start, matchk_seq, matchk_group.
    change (lit "@:") with (Seq (Lit "@") (Seq (Lit ":") Eps)).
    rewrite matchk_seq, matchk_lit_same, matchk_seq, matchk_lit_same, matchk_eps.
    rewrite matchk_group. unfold Plus at 1. rewrite !matchk_seq.
    unfold alnum at 1. rewrite matchk_cls, alnum_class, Hc.
    apply matchk_star_total. intros p s c'.
    apply matchk_star_total. intros p' s' c''. eexists; reflexivity.
Qed.

Section PluginFacts.
Variable pluginOptions : PluginOptions.
Variable getUrlMetadata : string -> option UrlMetadata.
Variable hostRules : string -> option (list Token -> nat -> string).
Variable renderToken : list Token -> nat -> string.

Lemma isCardLink_marked (href : string) :
  isCardLink (parseCardLinkHref (Some href)) = true <-> marked href.
Proof.
  unfold parseCardLinkHref; simpl. rewrite bool_decide_eq_true.
  apply tagRegexp_matches.
Qed.

Lemma link_open_ordinary (tokens : list Token) (i : nat) (token : Token) :
  tokens !! i = Some token ->
  isCardLink (parseCardLinkHref (hrefOf token)) = false ->
  link_open pluginOptions getUrlMetadata renderToken tokens i =
    Return (renderToken tokens i, tokens).
Proof.
  intros Hi Hc. unfold link_open. rewrite Hi. cbv zeta.
  destruct (url (parseCardLinkHref (hrefOf token))); [|reflexivity].
  rewrite Hc, andb_false_r. reflexivity.
Qed.

(** C10: an href is classified as a card link exactly when it begins with
    the two characters of the marker followed at once by an ASCII letter or
    digit; a link_open token whose href is not one is rendered by the host's
    renderToken, with the token stream untouched. *)
Theorem card_link_marker (href : string) :
  (isCardLink (parseCardLinkHref (Some href)) = true <-> marked href) /\
  (forall tokens i token,
     tokens !! i = Some token ->
     hrefOf token = Some href ->
     isCardLink (parseCardLinkHref (Some href)) = false ->
     link_open pluginOptions getUrlMetadata renderToken tokens i =
       Return (renderToken tokens i, tokens)).
Proof.
  split; [apply isCardLink_marked|].
  intros tokens i token Hi Hh Hc. apply (link_open_ordinary tokens i token Hi).
  rewrite Hh. exact Hc.
Qed.

Lemma ignoreRestToken_lookup (tokens : list Token) (i j : nat) :
  ignoreRestToken tokens i !! j =
  (fun t => if Nat.eqb j i then t else set_hidden t) <$> tokens !! j.
Proof. unfold ignoreRestToken. apply list_lookup_imap. Qed.

Lemma ignoreRestToken_length (tokens : list Token) (i : nat) :
  List.length (ignoreRestToken tokens i) = List.length tokens.
Proof. unfold ignoreRestToken. apply length_imap. Qed.

(** Over hidden tokens the loop of renderInline adds nothing. *)
Lemma renderLoop_hidden (n j : nat) (tokens : list Token) (acc : string) :
  j + n <= List.length tokens ->
  (forall j' t, j <= j' -> tokens !! j' = Some t -> hidden t = true) ->
  renderLoop pluginOptions getUrlMetadata hostRules renderToken n j tokens acc =
    Return acc.
Proof.
  revert j acc. induction n as [|n IH]; intros j acc Hlen Hh; [reflexivity|].
  simpl. unfold renderStep.
  destruct (lookup_lt_is_Some_2 tokens j ltac:(lia)) as [t Ht].
  rewrite Ht, (Hh j t (le_n j) Ht). simpl.
  rewrite append_empty_r.
  apply IH; [lia|]. intros j' t' Hj'. apply Hh. lia.
Qed.

(** What the substitution of a card does to the stream, for every stream:
    every other token is marked hidden, whether or not it belongs to the
    link; the token at i is left as it was, and the turns of renderInline
    behind i add nothing to the output. *)
Lemma card_hides_all_other_tokens
    (tokens : list Token) (i : nat) (token : Token) (u : string)
    (meta : UrlMetadata) :
  tokens !! i = Some token ->
  String.eqb (tag token) "a" && String.eqb (type_ token) "link_open" = true ->
  parseCardLinkHref (hrefOf token) = mkCardLink true (Some u) ->
  truthy u = true ->
  getUrlMetadata u = Some meta ->
  (forall r, link_open pluginOptions getUrlMetadata renderToken tokens i = Return r ->
             snd r = ignoreRestToken tokens i) /\
  (forall j t, j <> i -> tokens !! j = Some t ->
               ignoreRestToken tokens i !! j = Some (set_hidden t)) /\
  ignoreRestToken tokens i !! i = Some token /\
  (forall acc,
     renderLoop pluginOptions getUrlMetadata hostRules renderToken
       (List.length tokens - S i) (S i) (ignoreRestToken tokens i) acc =
     Return acc).
Proof.
  intros Hi Hlink Hparse Hu Hmeta. repeat split.
  - intros r. unfold link_open. rewrite Hi. cbv zeta.
    rewrite Hparse. cbn [url isCardLink]. rewrite Hlink, Hu. cbn [andb].
    unfold assembleCardTpl. rewrite Hmeta. cbv zeta.
    destruct (p_render pluginOptions) as [render|].
    + unfold bind. destruct (truthy (render _ _)); intros [= <-]; reflexivity.
    + destruct (generateCardDomFragment _ _) as [card|e]; unfold bind;
        [|discriminate].
      destruct (truthy card); intros [= <-]; reflexivity.
  - intros j t Hj Ht. rewrite ignoreRestToken_lookup, Ht. simpl.
    destruct (Nat.eqb_spec j i); [contradiction | reflexivity].
  - rewrite ignoreRestToken_lookup, Hi. simpl. rewrite Nat.eqb_refl. reflexivity.
  - intros acc. apply renderLoop_hidden.
    + rewrite ignoreRestToken_length.
      pose proof (lookup_lt_Some _ _ _ Hi). lia.
    + intros j t Hj. rewrite ignoreRestToken_lookup.
      destruct (tokens !! j) as [t0|]; simpl; [|discriminate].
      destruct (Nat.eqb_spec j i); [lia|]. intros [= <-]. reflexivity.
Qed.

End PluginFacts.

(** C9 (fails on the code): after the card link at index 0 is matched, the
    text at index 3 and the ordinary link at index 4, both outside that
    link, are hidden too, and the whole stream renders as the card alone,
    although the host would render each of them. *)
Lemma tokens_outside_link_suppressed :
  link_open noOptions exampleMetadata exampleRenderToken exampleStream 0 =
    Return (exampleCard, ignoreRestToken exampleStream 0) /\
  hidden <$> ignoreRestToken exampleStream 0 !! 3 = Some true /\
  hidden <$> ignoreRestToken exampleStream 0 !! 4 = Some true /\
  (forall f, exampleHostRules "text" = Some f -> f exampleStream 3 = " and ") /\
  exampleRenderToken exampleStream 4 = "<a href='https://other.example'>" /\
  renderInline noOptions exampleMetadata exampleHostRules exampleRenderToken
    exampleStream = Return exampleCard /\
  includes exampleCard "https://other.example" = false.
Proof.
  repeat split; try (vm_compute; reflexivity).
  intros f [= <-]. reflexivity.
Qed.

Lemma card_link_marker_witness :
  let tokens := [linkOpenToken "@:/relative/path"; textToken "x"; linkCloseToken] in
  link_open noOptions exampleMetadata exampleRenderToken tokens 0 =
    Return (exampleRenderToken tokens 0, tokens).
Proof.
  intros tokens.
  apply (proj2 (card_link_marker noOptions exampleMetadata exampleRenderToken
                  "@:/relative/path") tokens 0 (linkOpenToken "@:/relative/path"));
    vm_compute; reflexivity.
Defined.

(** The hrefs named in the claim are not card links; an absolute URL behind
    the marker is. *)
Lemma marker_examples :
  isCardLink (parseCardLinkHref (Some "@:/relative/path")) = false /\
  isCardLink (parseCardLinkHref (Some "@:#fragment")) = false /\
  isCardLink (parseCardLinkHref None) = false /\
  parseCardLinkHref (Some "@:https://example.com") =
    mkCardLink true (Some "https://example.com").
Proof. repeat split; vm_compute; reflexivity. Qed.

(** * Further properties of the code *)

(** ** The metadata extractor and the URL helpers *)

(** X1: parserMetadata never uses its url argument: the result for a page
    text is the same whatever the page's URL is. *)
Theorem parserMetadata_ignores_url (htmlString url url' : string) :
  parserMetadata htmlString url = parserMetadata htmlString url'.
Proof.
  unfold parserMetadata.
  destruct (matchLogoByLinkOrMetaTag htmlString) as [l|]; [|reflexivity].
  rewrite !absolute_unfold. reflexivity.
Qed.

(** X2: a record that parserMetadata returns holds the title and the
    description as the extractors found them, and a logo that is the default
    logo or the logo found in the page; the logo is never empty and the URL
    constructor accepts it. *)
Theorem returned_record_invariant (htmlString url : string) (m : UrlMetadata) :
  parserMetadata htmlString url = Return (Some m) ->
  title m = matchTitleByMetaTag htmlString /\
  description m = matchDescriptionByMetaTag htmlString /\
  exists l u,
    logo m = Some l /\ truthy l = true /\ extractUrl l = Return u /\
    (l = DEFAULT_LOGO \/ matchLogoByLinkOrMetaTag htmlString = Some l).
Proof.
  unfold parserMetadata. intros H.
  assert (Hrec : forall l,
    (if isEmptyStringObject
          [title (mkMeta (matchTitleByMetaTag htmlString)
                         (matchDescriptionByMetaTag htmlString) (Some l));
           description (mkMeta (matchTitleByMetaTag htmlString)
                         (matchDescriptionByMetaTag htmlString) (Some l));
           logo (mkMeta (matchTitleByMetaTag htmlString)
                         (matchDescriptionByMetaTag htmlString) (Some l))]
     then Return None
     else Return (Some (mkMeta (matchTitleByMetaTag htmlString)
                          (matchDescriptionByMetaTag htmlString) (Some l)))) =
    Return (Some m) ->
    m = mkMeta (matchTitleByMetaTag htmlString)
               (matchDescriptionByMetaTag htmlString) (Some l)).
  { intros l. unfold isEmptyStringObject. simpl.
    destruct (isString (matchTitleByMetaTag htmlString)),
             (isString (matchDescriptionByMetaTag htmlString));
      simpl; congruence. }
  destruct (matchLogoByLinkOrMetaTag htmlString) as [l|].
  - rewrite absolute_unfold in H. destruct (truthy l) eqn:Ht.
    + destruct (extractUrl l) as [u|e] eqn:Hu; simpl in H; [|discriminate].
      rewrite (Hrec l H). simpl. eauto 10.
    + simpl in H. rewrite (Hrec _ H). simpl.
      split; [reflexivity|split; [reflexivity|]].
      eexists _, _.
      split; [reflexivity|split; [reflexivity|split; [vm_compute; reflexivity|]]].
      left. reflexivity.
  - simpl in H. rewrite (Hrec _ H). simpl.
    split; [reflexivity|split; [reflexivity|]].
    eexists _, _.
    split; [reflexivity|split; [reflexivity|split; [vm_compute; reflexivity|]]].
    left. reflexivity.
Qed.

Lemma returned_record_invariant_witness :
  let m := mkMeta None None (Some "https://example.com/a.png") in
  title m = matchTitleByMetaTag ogImagePage /\
  description m = matchDescriptionByMetaTag ogImagePage /\
  exists l u,
    logo m = Some l /\ truthy l = true /\ extractUrl l = Return u /\
    (l = DEFAULT_LOGO \/ matchLogoByLinkOrMetaTag ogImagePage = Some l).
Proof.
  intros m.
  apply (returned_record_invariant ogImagePage "https://example.com/" m).
  vm_compute. reflexivity.
Defined.

(** X3: a page text without the character < (the empty text included) gives
    the record that holds the default logo alone, and the card rendered from
    it, for any accepted href, is titled No title, has an empty description
    and shows the default logo. *)
Theorem tagless_page_card (htmlString url : string)
    (options : CardDomRenderOptions) (u : URL) :
  all_chars (fun b => negb (Ascii.eqb b "<")) htmlString = true ->
  new_URL (href options) = Return u ->
  parserMetadata htmlString url =
    Return (Some (mkMeta None None (Some DEFAULT_LOGO))) /\
  generateCardDomFragment (mkMeta None None (Some DEFAULT_LOGO)) options =
    Return (cardTemplate options STYLE "No title" (domainOf u) EmptyString
              (Some DEFAULT_LOGO)).
Proof.
  intros Hs Hu. split; [apply parserMetadata_without_tags, Hs|].
  unfold generateCardDomFragment. cbv zeta. rewrite or_else_self, Hu.
  unfold bind, cardTexts.
  destruct (String.eqb (domainOf u) "github.com"); reflexivity.
Qed.

Lemma tagless_page_card_witness :
  parserMetadata "plain text, no markup" "https://example.com/page" =
    Return (Some (mkMeta None None (Some DEFAULT_LOGO))) /\
  generateCardDomFragment (mkMeta None None (Some DEFAULT_LOGO))
      (exampleOptions None) =
    Return (cardTemplate (exampleOptions None) STYLE "No title"
              (domainOf exampleUrl) EmptyString (Some DEFAULT_LOGO)).
Proof.
  apply (tagless_page_card "plain text, no markup" "https://example.com/page"
           (exampleOptions None) exampleUrl); vm_compute; reflexivity.
Defined.

(** *** Inputs the URL constructor rejects *)

Lemma trim_start_all (P : ascii -> bool) (s : string) :
  all_chars P s = true -> all_chars P (trim_start s) = true.
Proof.
  induction s as [|c s IH]; intros H; [reflexivity|].
  simpl. destruct (is_c0_or_space c); [|exact H].
  simpl in H. apply andb_true_iff in H. apply IH, H.
Qed.

Lemma trim_end_all (P : ascii -> bool) (s : string) :
  all_chars P s = true -> all_chars P (trim_end s) = true.
Proof.
  induction s as [|c s IH]; intros H; [reflexivity|].
  simpl in H. apply andb_true_iff in H. destruct H as [Hc Hs].
  specialize (IH Hs). simpl.
  destruct (trim_end s) as [|d t].
  - destruct (is_c0_or_space c); [reflexivity|]. simpl. rewrite Hc. reflexivity.
  - simpl in *. rewrite Hc. exact IH.
Qed.

Lemma remove_tab_newline_all (P : ascii -> bool) (s : string) :
  all_chars P s = true -> all_chars P (remove_tab_newline s) = true.
Proof.
  induction s as [|c s IH]; intros H; [reflexivity|].
  simpl in H. apply andb_true_iff in H. destruct H as [Hc Hs].
  simpl. destruct (is_tab_or_newline c); [apply IH, Hs|].
  simpl. rewrite Hc. apply IH, Hs.
Qed.

Lemma scheme_state_colonless (s : string) :
  all_chars notColon s = true -> scheme_state s = None.
Proof.
  induction s as [|c s IH]; intros H; [reflexivity|].
  simpl in H. apply andb_true_iff in H. destruct H as [Hc Hs].
  unfold notColon in Hc. apply negb_true_iff in Hc.
  simpl. rewrite Hc, (IH Hs). destruct (is_scheme_char c); reflexivity.
Qed.

Lemma new_URL_colonless (s : string) :
  all_chars notColon s = true -> new_URL s = Throw TypeError_InvalidURL.
Proof.
  intros H. unfold new_URL, basic_url_parser. cbv zeta.
  pose proof (remove_tab_newline_all _ _
                (trim_end_all _ _ (trim_start_all _ _ H))) as Ht.
  unfold scheme_start_state.
  destruct (remove_tab_newline (trim_end (trim_start s))) as [|c t] eqn:E;
    [reflexivity|].
  rewrite (scheme_state_colonless _ Ht).
  destruct (is_alpha c); reflexivity.
Qed.

(** X4: extractUrl throws a TypeError for every text without a colon: the
    empty text, a path, a file name, a host name without its scheme. *)
Theorem extractUrl_rejects_colonless (url : string) :
  all_chars notColon url = true -> extractUrl url = Throw TypeError_InvalidURL.
Proof. apply new_URL_colonless. Qed.

Lemma extractUrl_rejects_colonless_witness :
  extractUrl "www.example.com/images/logo.png" = Throw TypeError_InvalidURL.
Proof. apply extractUrl_rejects_colonless. vm_compute. reflexivity. Defined.

(** X5: when the logo found in a page is not empty and has no colon (a
    relative reference such as /favicon.ico or img/logo.png), parserMetadata
    throws a TypeError instead of resolving the logo against the page's
    URL. *)
Theorem colonless_logo_throws (htmlString url l : string) :
  matchLogoByLinkOrMetaTag htmlString = Some l ->
  truthy l = true ->
  all_chars notColon l = true ->
  parserMetadata htmlString url = Throw TypeError_InvalidURL.
Proof.
  intros Hl Ht Hc.
  apply (rejected_logo_throws htmlString url l _ Hl Ht).
  apply new_URL_colonless, Hc.
Qed.

Lemma colonless_logo_throws_witness :
  parserMetadata faviconPage "https://example.com/" = Throw TypeError_InvalidURL.
Proof.
  apply (colonless_logo_throws faviconPage "https://example.com/" "/favicon.ico");
    vm_compute; reflexivity.
Defined.

(** *** cleanPath *)

Lemma search_double_slash_absent (s : string) :
  includes s "//" = false ->
  forall p i, search_from (lit "//") p s i = None.
Proof.
  induction s as [|a s IH]; intros H p i; [reflexivity|].
  simpl in H. apply orb_false_iff in H. destruct H as [Ha Hs].
  rewrite search_from_miss; [apply IH, Hs|].
  unfold match_at. cbn [lit]. rewrite matchk_seq.
  destruct (Ascii.eqb a "/") eqn:E.
  - apply Ascii.eqb_eq in E. subst a. rewrite matchk_lit_same, matchk_seq.
    destruct s as [|b s]; [reflexivity|].
    destruct (Ascii.eqb b "/") eqn:E2.
    + apply Ascii.eqb_eq in E2. subst b. destruct s; vm_compute in Ha; discriminate.
    + apply matchk_lit_other, E2.
  - apply matchk_lit_other, E.
Qed.

(** X6: cleanPath returns a path without two slashes in a row as it is. *)
Theorem cleanPath_without_double_slash (path : string) :
  includes path "//" = false -> cleanPath path = path.
Proof.
  intros H. unfold cleanPath, replace_all. simpl.
  rewrite (search_double_slash_absent path H). reflexivity.
Qed.

Lemma cleanPath_without_double_slash_witness :
  cleanPath "/img/logo.png" = "/img/logo.png".
Proof. apply cleanPath_without_double_slash. vm_compute. reflexivity. Defined.

Lemma replace_slashes (fuel : nat) : forall n p,
  n <= 2 * fuel + 1 ->
  replace_from fuel (lit "//") (fun _ => "/") p (slashes n) =
  slashes (n - n / 2).
Proof.
  induction fuel as [|fuel IH]; intros n p Hn.
  - destruct n as [|[|n]]; [reflexivity|reflexivity|lia].
  - destruct n as [|[|n]]; [reflexivity|reflexivity|].
    cbn [replace_from].
    assert (Hm : search_from (lit "//") p (slashes (S (S n))) 0 =
                 Some (MatchResult 0 "//" [] (Some "/"%char) (slashes n))).
    { apply search_from_hit. unfold match_at. cbn [lit slashes].
      rewrite matchk_seq, matchk_lit_same, matchk_seq, matchk_lit_same, matchk_eps.
      f_equal. f_equal.
      change (String "/" (String "/" (slashes n))) with ("//" ++ slashes n).
      apply consumed_append. }
    rewrite Hm. cbn [m_index m_text m_rest m_prev advance take].
    rewrite IH by lia.
    replace (S (S n) - S (S n) / 2) with (S (n - n / 2)); [reflexivity|].
    change (S (S n)) with (2 + n) at 2.
    replace (2 + n) with (n + 1 * 2) by lia.
    rewrite Nat.div_add by lia.
    assert (n / 2 <= n) by (apply Nat.Div0.div_le_upper_bound; lia). lia.
Qed.

(** X7: cleanPath halves a run of slashes, rounding up: it replaces the
    pairs from left to right in one pass and does not look again, so a run
    of three or more slashes still holds doubled slashes afterwards. *)
Theorem cleanPath_halves_slash_runs (n : nat) :
  cleanPath (slashes n) = slashes (n - n / 2).
Proof.
  unfold cleanPath, replace_all. apply replace_slashes.
  assert (String.length (slashes n) = n) as ->
    by (induction n; simpl; congruence).
  lia.
Qed.

(** ** Inline styles *)

Lemma is_upper_word (c : ascii) : is_upper c = true -> is_word c = true.
Proof.
  intros H. unfold is_word, is_alnum, is_alpha. rewrite H. reflexivity.
Qed.

(** The leftmost match of the pattern of hyphenate. *)
Lemma search_capital (s : string) (prev : option ascii) (i : nat) :
  search_from capital prev s i =
  match s with
  | EmptyString => None
  | String c s' =>
      if is_upper c && opt_word prev
      then Some (MatchResult i (String c EmptyString)
                   [(1, String c EmptyString)] (Some c) s')
      else search_from capital (Some c) s' (S i)
  end.
Proof.
  destruct s as [|c s'].
  - cbn [search_from]. unfold match_at, capital. rewrite matchk_seq.
    cbn [matchk head_char opt_word step_char].
    destruct (Bool.eqb (opt_word prev) false); reflexivity.
  - assert (Hc : consumed (String c s') s' = String c EmptyString)
      by apply (consumed_append (String c EmptyString) s').
    destruct (is_upper c) eqn:Hu; cbn [andb].
    + destruct (opt_word prev) eqn:Hp.
      * apply search_from_hit. unfold match_at, capital.
        rewrite matchk_seq. cbn [matchk head_char opt_word].
        rewrite Hp, (is_upper_word c Hu). cbn [Bool.eqb step_char].
        unfold cls_mem. cbn [existsb citem_mem xorb orb].
        fold (is_upper c). rewrite Hu. cbn [orb]. rewrite Hc. reflexivity.
      * apply search_from_miss. unfold match_at, capital.
        rewrite matchk_seq. cbn [matchk head_char opt_word].
        rewrite Hp, (is_upper_word c Hu). reflexivity.
    + apply search_from_miss. unfold match_at, capital.
      rewrite matchk_seq. cbn [matchk head_char opt_word step_char].
      unfold cls_mem. cbn [existsb citem_mem xorb orb].
      fold (is_upper c). rewrite Hu.
      destruct (Bool.eqb (opt_word prev) (is_word c)); reflexivity.
Qed.

(** One turn of the global replacement, behind a kept prefix [pre]. *)
Lemma replace_capital (s : string) : forall fuel prev pre,
  String.length s <= fuel ->
  match search_from capital prev s (String.length pre) with
  | None => pre ++ s
  | Some m =>
      take (m_index m) (pre ++ s) ++ ("-" ++ group_text m 1) ++
      match advance m with
      | None => EmptyString
      | Some (kept, p', s') =>
          kept ++ replace_from fuel capital (fun m => "-" ++ group_text m 1) p' s'
      end
  end = pre ++ hyphens prev s.
Proof.
  induction s as [|c s IH]; intros fuel prev pre Hf.
  - rewrite search_capital. reflexivity.
  - assert (Hs : String.length s <= fuel) by (simpl in Hf; lia).
    rewrite search_capital. cbn [hyphens].
    destruct (is_upper c && opt_word prev).
    + cbn [m_index m_text m_rest m_prev advance].
      rewrite take_append. unfold group_text. cbn [nth_group m_groups cap Nat.eqb].
      destruct fuel as [|fuel]; [simpl in Hf; lia|].
      cbn [replace_from].
      specialize (IH fuel (Some c) EmptyString). cbn [String.length] in IH.
      rewrite !append_nil_l in IH.
      assert (Hs' : String.length s <= fuel) by (simpl in Hf; lia).
      specialize (IH Hs').
      match goal with
      | |- context [match search_from ?r ?p ?t 0 with _ => _ end] =>
          match type of IH with
          | ?L = _ => change (match search_from r p t 0 with
                              | Some m => _ | None => _ end) with L
          end
      end.
      rewrite IH. reflexivity.
    + specialize (IH fuel (Some c) (pre ++ String c EmptyString)).
      rewrite length_append in IH. cbn [String.length] in IH.
      replace (String.length pre + 1) with (S (String.length pre)) in IH by lia.
      rewrite !append_assoc in IH. rewrite append_cons, append_nil_l in IH.
      exact (IH Hs).
Qed.

Lemma replace_all_capital (str : string) :
  replace_all capital (fun m => "-" ++ group_text m 1) str = hyphens None str.
Proof.
  unfold replace_all. cbn [replace_from].
  pose proof (replace_capital str (String.length str) None EmptyString
                (le_n _)) as H.
  cbn [String.length] in H. rewrite !append_nil_l in H. exact H.
Qed.

Lemma hyphens_lower (s : string) : forall prev,
  all_chars notCapital s = true -> hyphens prev s = s.
Proof.
  induction s as [|c s IH]; intros prev H; [reflexivity|].
  simpl in H. apply andb_true_iff in H. destruct H as [Hc Hs].
  unfold notCapital in Hc. apply negb_true_iff, orb_false_iff in Hc.
  destruct Hc as [Hc _].
  cbn [hyphens]. rewrite Hc. cbn [andb]. rewrite IH by exact Hs. reflexivity.
Qed.

Lemma toLowerCase_lower (s : string) :
  all_chars notCapital s = true -> toLowerCase s = s.
Proof.
  induction s as [|c s IH]; intros H; [reflexivity|].
  simpl in H. apply andb_true_iff in H. destruct H as [Hc Hs].
  unfold notCapital in Hc. apply negb_true_iff in Hc.
  cbn [toLowerCase]. unfold to_lower. rewrite Hc, IH by exact Hs. reflexivity.
Qed.

(** X8: hyphenate puts a hyphen before exactly those of the letters A to Z
    that follow a letter, a digit or an underscore, and lower-cases the
    whole; a capital at the start or behind a hyphen gets none. *)
Theorem hyphenate_inserts_hyphens (str : string) :
  hyphenate str = toLowerCase (hyphens None str).
Proof.
  unfold hyphenate. fold capital. rewrite replace_all_capital. reflexivity.
Qed.

(** X9: hyphenate leaves a name without capital letters, those of A to Z
    and those of Latin-1 that lower-casing would change, as it is, so the
    property names of the style tables that are already hyphenated pass
    through unchanged. *)
Theorem hyphenate_keeps_kebab_case (str : string) :
  all_chars notCapital str = true -> hyphenate str = str.
Proof.
  intros H. unfold hyphenate. fold capital.
  rewrite replace_all_capital, hyphens_lower by exact H.
  apply toLowerCase_lower, H.
Qed.

Lemma hyphenate_keeps_kebab_case_witness :
  hyphenate "-webkit-box-orient" = "-webkit-box-orient".
Proof. apply hyphenate_keeps_kebab_case. vm_compute. reflexivity. Defined.

(** X10: join leaves out every declaration whose value is falsy (the
    number 0, the empty string) or whose name is empty: the style text is
    the same as without that entry. *)
Theorem join_skips_falsy (before after : list (string * cssval))
    (k : string) (v : cssval) :
  truthy k && val_truthy v = false ->
  join (before ++ (k, v) :: after) = join (before ++ after).
Proof.
  intros H. unfold join. rewrite !flat_map_app. cbn [flat_map].
  rewrite H. reflexivity.
Qed.

Lemma join_skips_falsy_witness :
  join ([ ("borderRadius", VStr "0px 12px 12px 0px"); ("maxWidth", VStr "40%");
          ("height", VStr "128px") ] ++
        ("flexShrink", VNum 0) ::
        [ ("objectFit", VStr "contain"); ("overflow", VStr "hidden") ]) =
  join ([ ("borderRadius", VStr "0px 12px 12px 0px"); ("maxWidth", VStr "40%");
          ("height", VStr "128px") ] ++
        [ ("objectFit", VStr "contain"); ("overflow", VStr "hidden") ]).
Proof. apply join_skips_falsy. reflexivity. Defined.

(** ** The card renderer *)

Lemma escapeHTML_without_amp_witness :
  escapeHTML "<img src=x onerror='alert(1)'>" = "<img src=x onerror='alert(1)'>".
Proof. apply escapeHTML_without_amp. vm_compute. reflexivity. Defined.

Lemma strip_scheme (h : string) :
  replace_one (seqs [Bol; lit "http"; Opt (Lit "s"); lit "://"])
    (fun _ => EmptyString) ("https://" ++ h) = h /\
  replace_one (seqs [Bol; lit "http"; Opt (Lit "s"); lit "://"])
    (fun _ => EmptyString) ("http://" ++ h) = h.
Proof.
  unfold replace_one. cbn [seqs]. rewrite !exec_anchored. unfold match_at.
  cbn [lit]. unfold Opt. split.
  - rewrite !append_cons, append_nil_l.
    rewrite matchk_seq, matchk_bol_start. repeat mstep.
    rewrite matchk_alt. repeat mstep. reflexivity.
  - rewrite !append_cons, append_nil_l.
    rewrite matchk_seq, matchk_bol_start. repeat mstep.
    rewrite matchk_alt. rewrite matchk_lit_other by reflexivity.
    repeat mstep. reflexivity.
Qed.

(** The next character of the text against the next literal of the
    pattern. *)
Ltac one_char h :=
  rewrite ?matchk_seq;
  destruct h as [|?c h]; [reflexivity|];
  match goal with
  | |- context [matchk (Lit ?a) _ (String ?c _)] =>
      destruct (Ascii.eqb c a) eqn:?E;
      [apply Ascii.eqb_eq in E; subst c; rewrite matchk_lit_same
      |rewrite matchk_lit_other by assumption]
  end.

Ltac other_char c :=
  cbn [withoutWww];
  destruct c as [[] [] [] [] [] [] [] []]; try reflexivity; discriminate.

Lemma strip_www (h : string) :
  replace_one (seqs [Bol; lit "www"; Lit "."]) (fun _ => EmptyString) h =
  withoutWww h.
Proof.
  unfold replace_one. cbn [seqs]. rewrite exec_anchored. unfold match_at.
  cbn [lit]. rewrite matchk_seq, matchk_bol_start.
  one_char h; [|other_char c].
  rewrite matchk_seq. one_char h; [|other_char c].
  rewrite matchk_seq. one_char h; [|other_char c].
  rewrite matchk_eps. one_char h; [|other_char c].
  reflexivity.
Qed.

(** X12: for an origin with the scheme http or https the domain shown on
    the card is the origin without the scheme and without one leading www
    and its dot; the port, when there is one, stays. *)
Theorem domainOf_strips_scheme_and_www (u : URL) (h : string) :
  origin u = "https://" ++ h \/ origin u = "http://" ++ h ->
  domainOf u =
  if truthy (withoutWww h) then withoutWww h else "Unknown domain".
Proof.
  intros H. unfold domainOf.
  destruct (strip_scheme h) as [Hs Hp].
  destruct H as [-> | ->]; [rewrite Hs|rewrite Hp]; rewrite strip_www;
    reflexivity.
Qed.

Lemma domainOf_strips_scheme_and_www_witness :
  domainOf (mkURL "http:" "www.example.com" (Some 8080%N)
              "http://www.example.com:8080") = "example.com:8080".
Proof.
  apply (domainOf_strips_scheme_and_www _ "www.example.com:8080").
  right. reflexivity.
Defined.

Lemma split_head_append (sep : ascii) (a r : string) :
  all_chars (fun c => negb (Ascii.eqb c sep)) a = true ->
  split_head sep (a ++ String sep r) = a.
Proof.
  induction a as [|c a IH]; intros H.
  - rewrite append_nil_l. simpl. rewrite Ascii.eqb_refl. reflexivity.
  - simpl in H. apply andb_true_iff in H. destruct H as [Hc Ha].
    apply negb_true_iff in Hc. rewrite append_cons. cbn [split_head].
    rewrite Hc, IH by exact Ha. reflexivity.
Qed.

Lemma substring_all (s : string) : forall n,
  String.length s <= n -> String.substring 0 n s = s.
Proof.
  induction s as [|c s IH]; intros n H.
  - destruct n; reflexivity.
  - destruct n; [simpl in H; lia|]. simpl. rewrite IH; [reflexivity|].
    simpl in H. lia.
Qed.

Lemma replace_first_absent (pat rep s : string) :
  includes s pat = false -> replace_first pat rep s = s.
Proof.
  induction s as [|c s IH]; intros H.
  - simpl in H. apply orb_false_iff in H. destruct H as [H _].
    simpl. rewrite H. reflexivity.
  - cbn [includes] in H. apply orb_false_iff in H. destruct H as [Hp Hs].
    cbn [replace_first]. rewrite Hp, IH by exact Hs. reflexivity.
Qed.

Lemma replace_github_prefix (name : string) :
  truthy name = true ->
  replace_first "GitHub - " EmptyString ("GitHub - " ++ name) = name.
Proof.
  intros H. destruct name as [|c name]; [discriminate|].
  assert (Hp : String.prefix "GitHub - " ("GitHub - " ++ String c name) = true).
  { cbn. reflexivity. }
  rewrite !append_cons, append_nil_l in *.
  cbn [replace_first]. rewrite Hp. rewrite append_nil_l.
  cbn [String.length String.substring].
  f_equal. apply substring_all. lia.
Qed.

(** X13: on github.com a title of the form GitHub - NAME: REST, with a
    non-empty NAME that has no colon, is shown as NAME alone; a description
    that holds neither the text - NAME nor the sentence Contribute to NAME
    development by creating an account on GitHub. is shown as it is. *)
Theorem github_title_cleanup (data : UrlMetadata) (name rest d : string) :
  title data = Some ("GitHub - " ++ name ++ String ":" rest) ->
  all_chars notColon name = true ->
  truthy name = true ->
  description data = Some d ->
  includes d (" - " ++ name) = false ->
  includes d ("Contribute to " ++ name ++
              " development by creating an account on GitHub.") = false ->
  cardTexts data "github.com" = (name, d).
Proof.
  intros Ht Hc Hn Hd H1 H2. unfold cardTexts. cbn [String.eqb Ascii.eqb Bool.eqb].
  rewrite Ht, Hd. cbn [option_map].
  assert (Hs : split_head ":" ("GitHub - " ++ name ++ String ":" rest)
               = "GitHub - " ++ name).
  { rewrite <- append_assoc. apply split_head_append.
    rewrite all_chars_append. rewrite andb_true_iff. split; [reflexivity|exact Hc]. }
  rewrite Hs, replace_github_prefix by exact Hn.
  assert (Ho : or_else (Some name) "No title" = name).
  { unfold or_else. rewrite Hn. reflexivity. }
  rewrite Ho. rewrite (replace_first_absent _ _ d H1).
  rewrite (replace_first_absent _ _ d H2). rewrite or_else_self. reflexivity.
Qed.

Lemma github_title_cleanup_witness :
  cardTexts (mkMeta (Some "GitHub - owner/repo: A small tool")
                    (Some "A small tool for cards") None) "github.com" =
  ("owner/repo", "A small tool for cards").
Proof.
  apply (github_title_cleanup _ "owner/repo" " A small tool"
           "A small tool for cards"); vm_compute; reflexivity.
Defined.

(** ** Reading and writing the file cache *)

Section CacheAccessFacts.
Import Cache CacheAccess.

(** What a lookup returns, by the text of the cache file. *)
Lemma get_unfold (url : string) (st : fs) :
  get url st =
  match cacheFile st with
  | Some (Json (DObject props)) => (Return (getProperty props url), st)
  | Some (Json (DOther _)) => (Return Undefined, st)
  | Some _ => (Throw SyntaxError_JSON, st)
  | None => (Return (getProperty initialData url), exampleFile)
  end.
Proof.
  destruct st as [[[| |[props|j]]|] [[| |[props'|j']]|]]; reflexivity.
Qed.

Lemma has_unfold (url : string) (st : fs) :
  has url st =
  match get url st with
  | (Return v, st') => (Return (value_truthy v), st')
  | (Throw e, st') => (Throw e, st')
  end.
Proof.
  unfold has, mbind, ret. destruct (get url st) as [[v|e] st']; reflexivity.
Qed.

Lemma set_unfold (url : string) (data : UrlMetadata) (st : fs) :
  set url data st =
  match cacheFile st with
  | Some Blank | Some Malformed => (Throw SyntaxError_JSON, st)
  | _ => (Return tt, after (set url data) st)
  end.
Proof.
  destruct st as [[[| |[props|j]]|] [[| |[props'|j']]|]]; reflexivity.
Qed.

Lemma cacheFile_after_set (url : string) (data : UrlMetadata) (st : fs) :
  cacheFile (after (set url data) st) =
  Some (merged url (toJSON data)
          (match cacheFile st with
           | Some t => t
           | None => Json (DObject initialData)
           end)).
Proof.
  unfold set. rewrite after_setFile.
  destruct st as [[t|] [t'|]]; reflexivity.
Qed.

Lemma object_assign_lookup (props : gmap string json) (k : string) (v : json) :
  k <> "__proto__" -> object_assign props k v !! k = Some v.
Proof.
  intros H. unfold object_assign.
  rewrite (bool_decide_eq_false_2 _ H). cbn [andb]. apply lookup_insert_eq.
Qed.

Lemma get_after_set (url : string) (data : UrlMetadata) (st st' : fs) :
  url <> "__proto__" ->
  set url data st = (Return tt, st') ->
  get url st' = (Return (Own (toJSON data)), st').
Proof.
  intros Hne Hset. rewrite set_unfold in Hset.
  assert (Hst : st' = after (set url data) st /\
                cacheFile st <> Some Blank /\ cacheFile st <> Some Malformed).
  { destruct (cacheFile st) as [[| |d]|]; try discriminate;
      injection Hset as <-; repeat split; discriminate. }
  destruct Hst as (-> & Hb & Hm).
  rewrite get_unfold, cacheFile_after_set.
  destruct (cacheFile st) as [[| |[props|j]]|]; try congruence; cbn [merged];
    unfold getProperty;
    rewrite ?object_assign_lookup by exact Hne;
    rewrite ?lookup_singleton_eq; reflexivity.
Qed.

(** X14: after a set that returned, a get for the same URL returns the
    record as JSON holds it (absent fields left out) and has answers true,
    and neither touches the file; the one key excepted is __proto__. *)
Theorem set_then_get (url : string) (data : UrlMetadata) (st st' : fs) :
  url <> "__proto__" ->
  set url data st = (Return tt, st') ->
  get url st' = (Return (Own (toJSON data)), st') /\
  has url st' = (Return true, st').
Proof.
  intros Hne Hset. pose proof (get_after_set url data st st' Hne Hset) as Hg.
  split; [exact Hg|]. rewrite has_unfold, Hg. reflexivity.
Qed.

(** X15: when the cache file in use is empty, blank or not JSON, get, has
    and set all throw a SyntaxError and leave the files as they are; set
    does not repair the file. *)
Theorem unreadable_cache_file_throws (url : string) (data : UrlMetadata) (st : fs) :
  cacheFile st = Some Blank \/ cacheFile st = Some Malformed ->
  get url st = (Throw SyntaxError_JSON, st) /\
  has url st = (Throw SyntaxError_JSON, st) /\
  set url data st = (Throw SyntaxError_JSON, st).
Proof.
  intros H. rewrite has_unfold, get_unfold, set_unfold.
  destruct H as [-> | ->]; repeat split; reflexivity.
Qed.

(** X16: a lookup when neither cache file exists creates the file at the
    default path with the example entry and answers from it: every URL but
    https://example.com/ (and the inherited names) is absent, and that one
    is reported as cached. *)
Theorem missing_cache_file_is_created (url : string) :
  get url noFiles = (Return (getProperty initialData url), exampleFile) /\
  has "https://example.com/" noFiles = (Return true, exampleFile) /\
  (url <> "https://example.com/" ->
   existsb (String.eqb url) objectPrototypeNames = false ->
   has url noFiles = (Return false, exampleFile)).
Proof.
  split; [reflexivity|]. split; [reflexivity|].
  intros Hne Hp. rewrite has_unfold, get_unfold. cbn [cacheFile noFiles defaultFile fallbackFile].
  unfold getProperty, initialData.
  rewrite lookup_singleton_ne by congruence. rewrite Hp. reflexivity.
Qed.

(** X17: a name of Object.prototype (constructor, toString, ...) that the
    cache object does not hold itself is found all the same: get returns the
    inherited member and has answers true. *)
Theorem inherited_names_count_as_cached (name : string) (props : gmap string json)
    (st : fs) :
  cacheFile st = Some (Json (DObject props)) ->
  In name objectPrototypeNames ->
  props !! name = None ->
  get name st = (Return (Inherited name), st) /\
  has name st = (Return true, st).
Proof.
  intros Hf Hin Hp. rewrite has_unfold, get_unfold, Hf.
  unfold getProperty. rewrite Hp.
  assert (He : existsb (String.eqb name) objectPrototypeNames = true).
  { apply existsb_exists. exists name. split; [exact Hin|apply String.eqb_refl]. }
  rewrite He. split; reflexivity.
Qed.

(** X18: set writes one file only, the one CONFIG_FILE selects: it never
    creates the fallback file, leaves the fallback file alone when the default
    file exists, and does not create the default file when only the fallback
    file exists. *)
Theorem set_writes_one_file (url : string) (data : UrlMetadata) (st : fs) :
  existsSync FallbackPath (after (set url data) st) = existsSync FallbackPath st /\
  (existsSync DefaultPath st = true ->
   fallbackFile (after (set url data) st) = fallbackFile st) /\
  (existsSync DefaultPath st = false -> existsSync FallbackPath st = true ->
   defaultFile (after (set url data) st) = None).
Proof.
  unfold set. rewrite after_setFile.
  destruct st as [[t|] [t'|]]; repeat split; try reflexivity; discriminate.
Qed.

End CacheAccessFacts.

Lemma set_then_get_witness :
  let st' := Cache.after (Cache.set "https://example.com/a" cachedExample) noFiles in
  CacheAccess.get "https://example.com/a" st' =
    (Return (CacheAccess.Own (Cache.toJSON cachedExample)), st') /\
  CacheAccess.has "https://example.com/a" st' = (Return true, st').
Proof.
  intros st'.
  apply (set_then_get "https://example.com/a" cachedExample noFiles st');
    [discriminate | reflexivity].
Defined.

Lemma unreadable_cache_file_throws_witness :
  let st := Cache.mkFs (Some Cache.Blank)
              (Some (Cache.Json (Cache.DObject Cache.initialData))) in
  CacheAccess.get "https://example.com/" st = (Throw SyntaxError_JSON, st) /\
  CacheAccess.has "https://example.com/" st = (Throw SyntaxError_JSON, st) /\
  Cache.set "https://example.com/" cachedExample st = (Throw SyntaxError_JSON, st).
Proof.
  intros st.
  apply (unreadable_cache_file_throws "https://example.com/" cachedExample st).
  left. reflexivity.
Defined.

Lemma inherited_names_count_as_cached_witness :
  CacheAccess.get "constructor" exampleFile =
    (Return (CacheAccess.Inherited "constructor"), exampleFile) /\
  CacheAccess.has "constructor" exampleFile = (Return true, exampleFile).
Proof.
  apply (inherited_names_count_as_cached "constructor" Cache.initialData exampleFile).
  - reflexivity.
  - left. reflexivity.
  - vm_compute. reflexivity.
Defined.

(** ** Fetching, and the metadata lookup in front of it *)

(** X19: once sync has returned a page text for a URL, every later call for
    that URL returns the same text from the Map, whatever the network would
    answer then. *)
Theorem sync_answers_from_cache (network network' : string -> Xhr.exchange)
    (url text : string) (cache cache1 : gmap string string) :
  Xhr.sync network url cache = (Some text, cache1) ->
  Xhr.sync network' url cache1 = (Some text, cache1).
Proof.
  unfold Xhr.sync. intros H.
  destruct (cache !! url) as [t|] eqn:Hc.
  - injection H as <- <-. rewrite Hc. reflexivity.
  - destruct (network url) as [status body|]; [|discriminate].
    destruct (Z.eqb status 200 && truthy body); [|discriminate].
    injection H as <- <-. rewrite lookup_insert_eq. reflexivity.
Qed.

Lemma sync_answers_from_cache_witness :
  Xhr.sync offline "https://example.com/"
    (snd (Xhr.sync (serves taglessPage) "https://example.com/" noTexts)) =
  (Some taglessPage, snd (Xhr.sync (serves taglessPage) "https://example.com/" noTexts)).
Proof.
  apply (sync_answers_from_cache (serves taglessPage) offline
           "https://example.com/" taglessPage noTexts).
  vm_compute. reflexivity.
Defined.

(** X20: sync returns nothing only when the URL is not in the Map and the
    request failed, answered with a status other than 200, or answered with
    an empty body; the Map is then left as it was, so the next call asks the
    network again. *)
Theorem sync_failure_is_not_cached (network : string -> Xhr.exchange)
    (url : string) (cache cache1 : gmap string string) :
  Xhr.sync network url cache = (None, cache1) ->
  cache1 = cache /\ cache !! url = None /\
  (network url = Xhr.NetworkError \/
   exists status body, network url = Xhr.Response status body /\
                       (status <> 200%Z \/ body = EmptyString)).
Proof.
  unfold Xhr.sync. intros H.
  destruct (cache !! url) as [t|] eqn:Hc; [discriminate|].
  destruct (network url) as [status body|].
  - destruct (Z.eqb_spec status 200) as [->|Hs]; cbn [andb] in H.
    + destruct body as [|a body]; [|discriminate].
      injection H as <-. repeat split. right. eexists _, _. split; [reflexivity|].
      right. reflexivity.
    + injection H as <-. repeat split. right. eexists _, _. split; [reflexivity|].
      left. exact Hs.
  - injection H as <-. repeat split. left. reflexivity.
Qed.

Lemma sync_failure_is_not_cached_witness :
  noTexts = noTexts /\
  noTexts !! "https://example.com/missing" = None /\
  (notFound "https://example.com/missing" = Xhr.NetworkError \/
   exists status body,
     notFound "https://example.com/missing" = Xhr.Response status body /\
     (status <> 200%Z \/ body = EmptyString)).
Proof.
  apply (sync_failure_is_not_cached notFound "https://example.com/missing" noTexts noTexts).
  vm_compute. reflexivity.
Defined.

Section MetadataFacts.
Import Cache CacheAccess Metadata.

(** A lookup that found nothing finds nothing again. *)
Lemma has_false_stable (url : string) (st st1 : fs) :
  has url st = (Return false, st1) -> has url st1 = (Return false, st1).
Proof.
  rewrite !has_unfold, !get_unfold.
  destruct st as [[[| |[props|j]]|] [[| |[props'|j']]|]]; cbn;
    intros H; inversion H; subst; cbn;
    repeat match goal with Hv : _ = false |- _ => rewrite Hv end; reflexivity.
Qed.

(** X21: when getUrlMetadata has fetched and parsed a page, the next call
    for that URL is answered from the cache file, without the network and
    without the parser, with the record as JSON holds it. *)
Theorem fresh_metadata_is_served_from_file
    (network network' : string -> Xhr.exchange) (url : string)
    (st st1 : state) (m : UrlMetadata) :
  url <> "__proto__" ->
  getUrlMetadata network url st = (Return (Fresh m), st1) ->
  getUrlMetadata network' url st1 = (Return (Cached (Own (toJSON m))), st1).
Proof.
  intros Hne. destruct st as [files texts]. unfold getUrlMetadata.
  destruct (has url files) as [[[|]|e] files1] eqn:Hh.
  - destruct (get url files1) as [[v|e] files2]; discriminate.
  - destruct (Xhr.sync network url texts) as [[html|] texts1]; [|discriminate].
    destruct (truthy html); [|discriminate].
    destruct (parserMetadata html url) as [[meta|]|e]; try discriminate.
    destruct (set url meta files1) as [[[]|e] files2] eqn:Hs; [|discriminate].
    intros [= <- <-].
    pose proof (get_after_set url meta files1 files2 Hne Hs) as Hg.
    rewrite has_unfold, Hg. cbn [value_truthy json_truthy]. rewrite Hg.
    reflexivity.
  - discriminate.
Qed.

(** X22: when the parser throws on a fetched page, getUrlMetadata throws,
    stores nothing in the cache file, and keeps the page text in the Map of
    the fetcher: every later call for that URL throws the same error without
    asking the network. *)
Theorem failing_page_keeps_failing
    (network network' : string -> Xhr.exchange) (url html : string)
    (files files1 : fs) (texts : gmap string string) (e : error) :
  has url files = (Return false, files1) ->
  texts !! url = None ->
  network url = Xhr.Response 200 html ->
  truthy html = true ->
  parserMetadata html url = Throw e ->
  getUrlMetadata network url (files, texts) =
    (Throw e, (files1, <[url := html]> texts)) /\
  getUrlMetadata network' url (files1, <[url := html]> texts) =
    (Throw e, (files1, <[url := html]> texts)).
Proof.
  intros Hh Ht Hn Hy Hp. unfold getUrlMetadata, Xhr.sync.
  rewrite Hh, (has_false_stable url files files1 Hh), Ht, Hn, lookup_insert_eq.
  cbn [Z.eqb Pos.eqb andb].
  repeat first [rewrite Hy | rewrite Hp | progress cbv beta iota zeta].
  split; reflexivity.
Qed.

(** X23: getUrlMetadata returns null only when nothing was fetched; a page
    that was fetched never gives null, whatever it holds. *)
Theorem null_means_nothing_fetched (network : string -> Xhr.exchange)
    (url : string) (st st1 : state) :
  getUrlMetadata network url st = (Return Null, st1) ->
  fst (Xhr.sync network url (snd st)) = None \/
  fst (Xhr.sync network url (snd st)) = Some EmptyString.
Proof.
  destruct st as [files texts]. unfold getUrlMetadata. cbn [snd].
  destruct (has url files) as [[[|]|e] files1].
  - destruct (get url files1) as [[v|e] files2]; discriminate.
  - destruct (Xhr.sync network url texts) as [[html|] texts1]; [|left; reflexivity].
    destruct html as [|a html]; [right; reflexivity|]. cbn [truthy fst].
    pose proof (parserMetadata_never_null (String a html) url) as Hn.
    destruct (parserMetadata (String a html) url) as [[meta|]|e];
      try discriminate; [|congruence].
    destruct (set url meta files1) as [[[]|e] files2]; discriminate.
  - discriminate.
Qed.

End MetadataFacts.

Lemma fresh_metadata_is_served_from_file_witness :
  let m := mkMeta None None (Some DEFAULT_LOGO) in
  let st1 := snd (Metadata.getUrlMetadata (serves taglessPage)
                    "https://site.example/" (noFiles, noTexts)) in
  Metadata.getUrlMetadata offline "https://site.example/" st1 =
    (Return (Metadata.Cached (CacheAccess.Own (Cache.toJSON m))), st1).
Proof.
  intros m st1.
  apply (fresh_metadata_is_served_from_file (serves taglessPage) offline
           "https://site.example/" (noFiles, noTexts) st1 m);
    [discriminate | vm_compute; reflexivity].
Defined.

Lemma failing_page_keeps_failing_witness :
  let url := "https://site.example/" in
  Metadata.getUrlMetadata (serves faviconPage) url (noFiles, noTexts) =
    (Throw TypeError_InvalidURL, (exampleFile, <[url := faviconPage]> noTexts)) /\
  Metadata.getUrlMetadata (serves taglessPage) url
      (exampleFile, <[url := faviconPage]> noTexts) =
    (Throw TypeError_InvalidURL, (exampleFile, <[url := faviconPage]> noTexts)).
Proof.
  intros url.
  apply (failing_page_keeps_failing (serves faviconPage) (serves taglessPage)
           url faviconPage noFiles exampleFile noTexts TypeError_InvalidURL);
    vm_compute; reflexivity.
Defined.

Lemma null_means_nothing_fetched_witness :
  fst (Xhr.sync offline "https://site.example/"
         (snd (noFiles, noTexts))) = None \/
  fst (Xhr.sync offline "https://site.example/"
         (snd (noFiles, noTexts))) = Some EmptyString.
Proof.
  apply (null_means_nothing_fetched offline "https://site.example/"
           (noFiles, noTexts) (exampleFile, noTexts)).
  vm_compute. reflexivity.
Defined.

(** ** The programmatic entry point *)

(** X24: the promise of generateCard stays pending, neither resolved nor
    rejected, exactly when no page text was fetched; with a page text it is
    resolved, or rejected with the error of the parser or the renderer. *)
Theorem generateCard_pending (network : string -> Xhr.exchange) (url : string)
    (options : Api.CardOptions) (st : Api.state) :
  fst (Api.generateCard network url options st) = Api.Pending <->
  fst (Xhr.sync network url (fst st)) = None \/
  fst (Xhr.sync network url (fst st)) = Some EmptyString.
Proof.
  destruct st as [texts cache]. unfold Api.generateCard. cbn [fst].
  destruct (Xhr.sync network url texts) as [[html|] texts1]; cbn [fst].
  - destruct html as [|a html]; cbn [truthy].
    + split; [right; reflexivity|reflexivity].
    + pose proof (parserMetadata_never_null (String a html) url) as Hn.
      destruct (parserMetadata (String a html) url) as [[meta|]|e];
        [|congruence|].
      * destruct (generateCardDomFragment _ _); cbn [fst];
          split; try discriminate; intros [|]; discriminate.
      * cbn [fst]. split; try discriminate; intros [|]; discriminate.
  - split; [left; reflexivity|reflexivity].
Qed.

(** ** The plugin: what a paragraph with a card link renders to *)

Lemma concat_cons (x : string) (l : list string) :
  String.concat EmptyString (x :: l) = x ++ String.concat EmptyString l.
Proof.
  destruct l as [|y l]; simpl; [rewrite append_empty_r|]; reflexivity.
Qed.

Section PluginMore.
Variable pluginOptions : PluginOptions.
Variable getUrlMetadata : string -> option UrlMetadata.
Variable hostRules : string -> option (list Token -> nat -> string).
Variable renderToken : list Token -> nat -> string.

(** Over shown tokens that open no link the loop adds what the host
    renders and leaves the tokens alone. *)
Lemma renderLoop_plain (n : nat) : forall j acc tokens m,
  j + n <= List.length tokens ->
  (forall j' t, j <= j' < j + n -> tokens !! j' = Some t -> plainToken t = true) ->
  renderLoop pluginOptions getUrlMetadata hostRules renderToken (n + m) j tokens acc =
  renderLoop pluginOptions getUrlMetadata hostRules renderToken m (j + n) tokens
    (acc ++ hostTexts hostRules renderToken tokens j n).
Proof.
  induction n as [|n IH]; intros j acc tokens m Hlen Hp.
  - rewrite Nat.add_0_r. unfold hostTexts. simpl. rewrite append_empty_r. reflexivity.
  - cbn [Nat.add renderLoop]. unfold renderStep.
    destruct (lookup_lt_is_Some_2 tokens j ltac:(lia)) as [t Ht].
    pose proof (Hp j t ltac:(lia) Ht) as Hpl. unfold plainToken in Hpl.
    apply andb_true_iff in Hpl. destruct Hpl as [Hh Hl].
    apply negb_true_iff in Hh, Hl. rewrite Ht, Hh, Hl.
    assert (Hstep : forall x, bind (Return (x, tokens))
              (fun r => renderLoop pluginOptions getUrlMetadata hostRules
                          renderToken (n + m) (S j) (snd r) (acc ++ fst r)) =
              renderLoop pluginOptions getUrlMetadata hostRules renderToken
                (n + m) (S j) tokens (acc ++ x)) by reflexivity.
    assert (Htext : hostTexts hostRules renderToken tokens j (S n) =
                    hostText hostRules renderToken tokens j ++
                    hostTexts hostRules renderToken tokens (S j) n).
    { unfold hostTexts. cbn [seq map]. apply concat_cons. }
    rewrite Htext. unfold hostText at 1. rewrite Ht.
    replace (j + S n) with (S j + n) by lia.
    destruct (hostRules (type_ t)) as [f|]; rewrite Hstep, IH, append_assoc;
      try reflexivity; try lia; intros j' t' Hj'; apply Hp; lia.
Qed.

Lemma renderInline_at (tokens : list Token) (i : nat) (token : Token) :
  tokens !! i = Some token ->
  forallb plainToken (firstn i tokens) = true ->
  renderInline pluginOptions getUrlMetadata hostRules renderToken tokens =
  renderLoop pluginOptions getUrlMetadata hostRules renderToken
    (S (List.length tokens - S i)) i tokens
    (hostTexts hostRules renderToken tokens 0 i).
Proof.
  intros Hi Hp. unfold renderInline.
  pose proof (lookup_lt_Some _ _ _ Hi) as Hlt.
  replace (List.length tokens) with (i + S (List.length tokens - S i)) at 1 by lia.
  rewrite renderLoop_plain; [reflexivity|lia|].
  intros j' t Hj' Ht. rewrite forallb_forall in Hp. apply Hp.
  apply (list_elem_of_In (firstn i tokens) t).
  apply (list_elem_of_lookup_2 _ j'). rewrite lookup_take_lt by lia. exact Ht.
Qed.

Lemma renderStep_link_open (tokens : list Token) (i : nat) (token : Token) :
  tokens !! i = Some token ->
  hidden token = false ->
  type_ token = "link_open" ->
  renderStep pluginOptions getUrlMetadata hostRules renderToken tokens i =
  link_open pluginOptions getUrlMetadata renderToken tokens i.
Proof.
  intros Hi Hh Hty. unfold renderStep. rewrite Hi, Hh, Hty. reflexivity.
Qed.

(** X25: when the first link of a paragraph that the rule turns into a card
    stands at index i, renderInline returns what the host renders for the
    tokens before i, followed by the card, and nothing for any token behind
    i. *)
Theorem renderInline_prefix_then_card
    (tokens : list Token) (i : nat) (token : Token) (card : string) :
  tokens !! i = Some token ->
  hidden token = false ->
  type_ token = "link_open" ->
  forallb plainToken (firstn i tokens) = true ->
  link_open pluginOptions getUrlMetadata renderToken tokens i =
    Return (card, ignoreRestToken tokens i) ->
  renderInline pluginOptions getUrlMetadata hostRules renderToken tokens =
    Return (hostTexts hostRules renderToken tokens 0 i ++ card).
Proof.
  intros Hi Hh Hty Hp Hl.
  rewrite (renderInline_at tokens i token Hi Hp). cbn [renderLoop].
  rewrite (renderStep_link_open tokens i token Hi Hh Hty), Hl. cbn [bind fst snd].
  apply renderLoop_hidden.
  - rewrite ignoreRestToken_length.
    pose proof (lookup_lt_Some _ _ _ Hi). lia.
  - intros j t Hj. rewrite ignoreRestToken_lookup.
    destruct (tokens !! j) as [t0|]; simpl; [|discriminate].
    destruct (Nat.eqb_spec j i); [lia|]. intros [= <-]. reflexivity.
Qed.

(** X26: with a render function in the plugin options, a card link whose
    metadata is found gets what that function returns for the URL without
    the marker, the joined contents of the other tokens and the target
    _blank unless one is set; the built-in renderer and its URL check do not
    run.  When the function returns the empty text the link is rendered by
    the host, but all other tokens are hidden all the same. *)
Theorem custom_renderer_result
    (tokens : list Token) (i : nat) (token : Token) (u : string)
    (meta : UrlMetadata)
    (render : UrlMetadata -> CardDomRenderOptions -> string) :
  tokens !! i = Some token ->
  String.eqb (tag token) "a" && String.eqb (type_ token) "link_open" = true ->
  parseCardLinkHref (hrefOf token) = mkCardLink true (Some u) ->
  truthy u = true ->
  getUrlMetadata u = Some meta ->
  p_render pluginOptions = Some render ->
  let card :=
    render meta
      {| href := u;
         linkTitle := joinLinkTitle (ignoreRestToken tokens i);
         target := or_else (p_target pluginOptions) "_blank";
         classPrefix := p_classPrefix pluginOptions |} in
  link_open pluginOptions getUrlMetadata renderToken tokens i =
    Return (if truthy card then card
            else renderToken (ignoreRestToken tokens i) i,
            ignoreRestToken tokens i).
Proof.
  intros Hi Hlink Hparse Hu Hmeta Hr card. unfold link_open. rewrite Hi. cbv zeta.
  rewrite Hparse. cbn [url isCardLink]. rewrite Hlink, Hu. cbn [andb].
  unfold assembleCardTpl. rewrite Hmeta, Hr. cbv zeta. unfold bind.
  fold card. destruct (truthy card); reflexivity.
Qed.

(** X27: a card link whose target the URL constructor rejects (a host name
    without its scheme, say), and whose metadata is found, makes the rule
    throw with the built-in renderer, and with it the rendering of the whole
    paragraph. *)
Theorem rejected_target_throws
    (tokens : list Token) (i : nat) (token : Token) (u : string)
    (meta : UrlMetadata) (e : error) :
  tokens !! i = Some token ->
  hidden token = false ->
  tag token = "a" ->
  type_ token = "link_open" ->
  forallb plainToken (firstn i tokens) = true ->
  parseCardLinkHref (hrefOf token) = mkCardLink true (Some u) ->
  truthy u = true ->
  getUrlMetadata u = Some meta ->
  p_render pluginOptions = None ->
  new_URL u = Throw e ->
  link_open pluginOptions getUrlMetadata renderToken tokens i = Throw e /\
  renderInline pluginOptions getUrlMetadata hostRules renderToken tokens = Throw e.
Proof.
  intros Hi Hh Htag Hty Hp Hparse Ht Hmeta Hr Hu.
  assert (Hl : link_open pluginOptions getUrlMetadata renderToken tokens i = Throw e).
  { unfold link_open. rewrite Hi. cbv zeta. rewrite Hparse, Htag, Hty.
    cbn [url isCardLink].
    rewrite Ht. cbn [String.eqb Ascii.eqb Bool.eqb andb].
    unfold assembleCardTpl. rewrite Hmeta, Hr. cbv zeta.
    unfold generateCardDomFragment. cbn [href]. rewrite or_else_self, Hu.
    reflexivity. }
  split; [exact Hl|].
  rewrite (renderInline_at tokens i token Hi Hp). cbn [renderLoop].
  rewrite (renderStep_link_open tokens i token Hi Hh Hty), Hl. reflexivity.
Qed.

(** X28: when no metadata is found for the URL of a card link, the link is
    rendered by the host as an ordinary link, marker included, and no token
    is hidden. *)
Theorem link_without_metadata_is_ordinary
    (tokens : list Token) (i : nat) (token : Token) (u : string) :
  tokens !! i = Some token ->
  url (parseCardLinkHref (hrefOf token)) = Some u ->
  getUrlMetadata u = None ->
  link_open pluginOptions getUrlMetadata renderToken tokens i =
    Return (renderToken tokens i, tokens).
Proof.
  intros Hi Hu Hm. unfold link_open. rewrite Hi. cbv zeta. rewrite Hu.
  destruct (_ && _ && _); [|reflexivity].
  unfold assembleCardTpl. rewrite Hm. reflexivity.
Qed.

End PluginMore.

Lemma renderInline_prefix_then_card_witness :
  renderInline noOptions exampleMetadata exampleHostRules exampleRenderToken
    prefixedStream =
  Return (hostTexts exampleHostRules exampleRenderToken prefixedStream 0 1 ++
          prefixedCard).
Proof.
  apply (renderInline_prefix_then_card noOptions exampleMetadata exampleHostRules
           exampleRenderToken prefixedStream 1
           (linkOpenToken "@:https://example.com") prefixedCard);
    vm_compute; reflexivity.
Defined.

Lemma custom_renderer_result_witness :
  link_open customOptions exampleMetadata exampleRenderToken exampleStream 0 =
    Return ("<card href='https://example.com' target='_blank'/>",
            ignoreRestToken exampleStream 0).
Proof.
  apply (custom_renderer_result customOptions exampleMetadata exampleRenderToken
           exampleStream 0 (linkOpenToken "@:https://example.com")
           "https://example.com"
           (mkMeta (Some "Example Title") None (Some DEFAULT_LOGO)) customRender);
    vm_compute; reflexivity.
Defined.

Lemma rejected_target_throws_witness :
  link_open noOptions everywhere exampleRenderToken schemelessStream 0 =
    Throw TypeError_InvalidURL /\
  renderInline noOptions everywhere exampleHostRules exampleRenderToken
    schemelessStream = Throw TypeError_InvalidURL.
Proof.
  apply (rejected_target_throws noOptions everywhere exampleHostRules
           exampleRenderToken schemelessStream 0 (linkOpenToken "@:example.com")
           "example.com" cachedExample TypeError_InvalidURL);
    vm_compute; reflexivity.
Defined.

Lemma link_without_metadata_is_ordinary_witness :
  link_open noOptions nowhere exampleRenderToken exampleStream 0 =
    Return ("<a href='@:https://example.com'>", exampleStream).
Proof.
  apply (link_without_metadata_is_ordinary noOptions nowhere exampleRenderToken
           exampleStream 0 (linkOpenToken "@:https://example.com")
           "https://example.com");
    vm_compute; reflexivity.
Defined.

(** *** The title attribute of a card *)

Lemma joinLinkTitle_cons (t : Token) (l : list Token) :
  joinLinkTitle (t :: l) =
  (if hidden t then content t else EmptyString) ++ joinLinkTitle l.
Proof.
  unfold joinLinkTitle. cbn [map List.filter].
  destruct (truthy (if hidden t then content t else EmptyString)) eqn:E.
  - apply concat_cons.
  - destruct (if hidden t then content t else EmptyString); [|discriminate].
    reflexivity.
Qed.

Lemma joinLinkTitle_hidden (l : list Token) :
  joinLinkTitle (map set_hidden l) = String.concat EmptyString (map content l).
Proof.
  induction l as [|t l IH]; [reflexivity|].
  cbn [map]. rewrite joinLinkTitle_cons, concat_cons, IH. reflexivity.
Qed.

Lemma imap_all {A B : Type} (g : A -> B) (l : list A) :
  forall f : nat -> A -> B,
    (forall i x, f i x = g x) -> imap f l = map g l.
Proof.
  induction l as [|x l IH]; intros f Hf; [reflexivity|].
  rewrite imap_cons, Hf. cbn [map]. f_equal. apply IH.
  intros i y. apply Hf.
Qed.

Lemma ignoreRestToken_cons_0 (t : Token) (l : list Token) :
  ignoreRestToken (t :: l) 0 = t :: map set_hidden l.
Proof.
  unfold ignoreRestToken. rewrite imap_cons. cbn [Nat.eqb]. f_equal.
  apply imap_all. reflexivity.
Qed.

Lemma ignoreRestToken_cons_S (t : Token) (l : list Token) (i : nat) :
  ignoreRestToken (t :: l) (S i) = set_hidden t :: ignoreRestToken l i.
Proof. unfold ignoreRestToken. rewrite imap_cons. reflexivity. Qed.

(** X29: the title attribute a card gets for the link at index i is the
    concatenation of the contents of all other tokens of the paragraph, in
    order: the text of the link, and any text before and behind the link as
    well. *)
Theorem linkTitle_is_all_other_contents (tokens : list Token) (i : nat)
    (token : Token) :
  tokens !! i = Some token ->
  hidden token = false ->
  joinLinkTitle (ignoreRestToken tokens i) = othersContent tokens i.
Proof.
  revert i. induction tokens as [|t l IH]; intros i Hi Hh; [discriminate|].
  destruct i as [|i].
  - injection Hi as ->. rewrite ignoreRestToken_cons_0, joinLinkTitle_cons, Hh.
    rewrite append_nil_l. apply joinLinkTitle_hidden.
  - rewrite ignoreRestToken_cons_S, joinLinkTitle_cons. cbn [set_hidden hidden content].
    rewrite (IH i Hi Hh). unfold othersContent.
    cbn [firstn skipn app map]. rewrite concat_cons. reflexivity.
Qed.

Lemma linkTitle_is_all_other_contents_witness :
  joinLinkTitle (ignoreRestToken prefixedStream 1) = "see card now".
Proof.
  apply (linkTitle_is_all_other_contents prefixedStream 1
           (linkOpenToken "@:https://example.com")); reflexivity.
Defined.

(** *** The URL of a card link *)

Section StarFacts.
Context {R : Type}.

(** The greedy star of the dot takes a run without line terminators whole
    and gives it back one character at a time. *)
Lemma star_dot_backtrack (k : @cont R) (rest : string) :
  stopsAt notTerminator rest = true ->
  forall w n p c,
    all_chars notTerminator w = true ->
    String.length w <= n ->
    star_loop (matchk Dot) k n p (w ++ rest) c = backtrack k p w rest c.
Proof.
  intros Hrest. induction w as [|a w IH]; intros n p c Hw Hn.
  - rewrite append_nil_l. simpl backtrack.
    destruct n as [|n]; [reflexivity|]. simpl.
    destruct rest as [|b rest]; [reflexivity|]. simpl.
    unfold stopsAt, notTerminator in Hrest. apply negb_true_iff in Hrest.
    rewrite Hrest. reflexivity.
  - destruct n as [|n]; [simpl in Hn; lia|].
    rewrite append_cons.
    simpl in Hw. apply andb_true_iff in Hw. destruct Hw as [Ha Hw].
    cbn [star_loop backtrack matchk step_char].
    unfold notTerminator in Ha. rewrite Ha.
    rewrite (proj2 (Nat.ltb_lt _ _)) by (simpl; lia).
    rewrite IH; [rewrite append_cons; reflexivity | exact Hw | simpl in Hn; lia].
Qed.

End StarFacts.

(** A text splits into its longest prefix of [P]-characters and the rest. *)
Lemma split_run (P : ascii -> bool) (w : string) :
  exists w1 w2, w = w1 ++ w2 /\ all_chars P w1 = true /\
                match w2 with
                | EmptyString => True
                | String b _ => P b = false
                end.
Proof.
  induction w as [|a w (w1 & w2 & -> & H1 & H2)].
  - exists EmptyString, EmptyString. repeat split.
  - destruct (P a) eqn:Ha.
    + exists (String a w1), w2. rewrite append_cons. cbn [all_chars].
      rewrite Ha, H1. repeat split. exact H2.
    + exists EmptyString, (String a (w1 ++ w2)). repeat split. exact Ha.
Qed.

Lemma terminator_not_alnum (b : ascii) :
  is_line_terminator b = true ->
  cls_mem false [Range "a" "z"; Range "A" "Z"; Range "0" "9"] b = false.
Proof.
  intros H.
  assert (Hall : forall a,
            implb (is_line_terminator a)
              (negb (cls_mem false [Range "a" "z"; Range "A" "Z"; Range "0" "9"] a))
            = true).
  { apply forall_ascii_spec. vm_compute. reflexivity. }
  specialize (Hall b). rewrite H in Hall. simpl in Hall.
  apply negb_true_iff in Hall. exact Hall.
Qed.

Lemma exec_tagRegexp (c0 : ascii) (w rest : string) :
  is_alnum c0 = true ->
  all_chars notTerminator w = true ->
  stopsAt notTerminator rest = true ->
  exists p,
    exec tagRegexp ("@:" ++ String c0 (w ++ rest)) =
    Some (MatchResult 0 ("@:" ++ String c0 w)
            [(2, String c0 w); (1, "@:")] p rest).
Proof.
  intros Hc Hw Hrest.
  destruct (split_run (cls_mem false [Range "a" "z"; Range "A" "Z"; Range "0" "9"]) w)
    as (w1 & w2 & -> & H1 & H2).
  rewrite all_chars_append in Hw. apply andb_true_iff in Hw. destruct Hw as [_ Hw2].
  eexists.
  unfold tagRegexp. cbn [seqs]. rewrite exec_anchored. unfold match_at.
  rewrite !append_cons, append_nil_l.
  rewrite matchk_seq, matchk_bol_start, matchk_seq, matchk_group.
  change (lit "@:") with (Seq (Lit "@") (Seq (Lit ":") Eps)).
  rewrite matchk_seq, matchk_lit_same, matchk_seq, matchk_lit_same, matchk_eps.
  rewrite matchk_group. unfold Plus at 1. rewrite !matchk_seq.
  unfold alnum at 1. rewrite matchk_cls, alnum_class, Hc.
  rewrite matchk_star. unfold alnum. rewrite append_assoc.
  rewrite star_cls_backtrack.
  - erewrite backtrack_full; [reflexivity|].
    rewrite matchk_star, star_dot_backtrack;
      [|exact Hrest|exact Hw2|rewrite length_append; lia].
    erewrite backtrack_full; [|reflexivity].
    rewrite <- (append_assoc w1 w2 rest).
    change (String "@" (String ":" (String c0 ((w1 ++ w2) ++ rest))))
      with ("@:" ++ String c0 ((w1 ++ w2) ++ rest)).
    rewrite (consumed_append "@:" (String c0 ((w1 ++ w2) ++ rest))).
    change ("@:" ++ String c0 ((w1 ++ w2) ++ rest))
      with (("@:" ++ String c0 (w1 ++ w2)) ++ rest).
    rewrite (consumed_append ("@:" ++ String c0 (w1 ++ w2)) rest).
    change (String c0 ((w1 ++ w2) ++ rest)) with (String c0 (w1 ++ w2) ++ rest).
    rewrite (consumed_append (String c0 (w1 ++ w2)) rest).
    reflexivity.
  - destruct w2 as [|b w2].
    + rewrite append_nil_l. destruct rest as [|b rest]; [reflexivity|].
      unfold stopsAt, notTerminator in Hrest. rewrite negb_involutive in Hrest.
      rewrite (terminator_not_alnum b Hrest). reflexivity.
    + rewrite append_cons, H2. reflexivity.
  - exact H1.
  - rewrite !length_append. lia.
Qed.

(** X30: for an href that begins with the marker and an ASCII letter or
    digit, the URL of the card link is the href without the marker, cut at
    the first line feed or carriage return if there is one. *)
Theorem parseCardLinkHref_url (c0 : ascii) (w rest : string) :
  is_alnum c0 = true ->
  all_chars notTerminator w = true ->
  stopsAt notTerminator rest = true ->
  parseCardLinkHref (Some ("@:" ++ String c0 (w ++ rest))) =
    mkCardLink true (Some (String c0 w)).
Proof.
  intros Hc Hw Hrest.
  destruct (exec_tagRegexp c0 w rest Hc Hw Hrest) as [p He].
  unfold parseCardLinkHref. rewrite He. reflexivity.
Qed.

Lemma parseCardLinkHref_url_witness :
  parseCardLinkHref
    (Some ("@:" ++ String "h" ("ttps://example.com/a?b=1" ++
                               String "010" "second line"))) =
    mkCardLink true (Some "https://example.com/a?b=1").
Proof. apply parseCardLinkHref_url; vm_compute; reflexivity. Defined.
